(* Shallow embedding of pkg/controller/vitessshardreplication/reconcile_drain.go
   (vitess-operator): the drain reconciliation pass, its helpers
   updateDrainStatus, isShardHealthy, candidatePrimary, disableFastShutdown
   and the MySQL version gate safeMysqldUpgrade. *)

From Stdlib Require Import String Ascii ZArith NArith Lia.
From stdpp Require Import base gmap list strings.

Open Scope string_scope.

(* ------------------------------------------------------------------ *)
(** * Go strings: strings.SplitN, the version regexp, strconv.Atoi     *)
(* ------------------------------------------------------------------ *)

Module GoStrings.

(** Position of the first ':' split: [Some (before, after)] or [None]. *)
Fixpoint split_first_colon (s : string) : option (string * string) :=
  match s with
  | EmptyString => None
  | String c rest =>
      if Ascii.eqb c ":" then Some (EmptyString, rest)
      else match split_first_colon rest with
           | Some (a, b) => Some (String c a, b)
           | None => None
           end
  end.

(** [strings.SplitN(s, ":", 2)]. *)
Definition SplitN2 (s : string) : list string :=
  match split_first_colon s with
  | Some (a, b) => [a; b]
  | None => [s]
  end.

(** RE2 [\d] is the ASCII class [0-9]. *)
Definition is_digit (c : ascii) : bool :=
  let n := nat_of_ascii c in (48 <=? n)%nat && (n <=? 57)%nat.

(** The longest prefix of ASCII digits and the rest (greedy [\d+]). *)
Fixpoint take_digits (s : string) : string * string :=
  match s with
  | String c rest =>
      if is_digit c then let (d, r) := take_digits rest in (String c d, r)
      else (EmptyString, s)
  | EmptyString => (EmptyString, EmptyString)
  end.

(** One [(\d+)] group followed by the literal '.'. *)
Definition digits_then_dot (s : string) : option (string * string) :=
  match take_digits s with
  | (EmptyString, _) => None
  | (d, String c r) => if Ascii.eqb c "." then Some (d, r) else None
  | (_, EmptyString) => None
  end.

(** [mysqlImageVersion.FindStringSubmatch(s)] for the regexp
    [^(\d+)\.(\d+)\.(\d+)]: the whole match and the three groups, or
    [nil] when there is no match. Each [\d+] is followed either by a
    literal '.' or by nothing, so the greedy match is the only one. *)
Definition FindStringSubmatch (s : string) : list string :=
  match digits_then_dot s with
  | None => []
  | Some (d1, r1) =>
      match digits_then_dot r1 with
      | None => []
      | Some (d2, r2) =>
          match take_digits r2 with
          | (EmptyString, _) => []
          | (d3, _) => [d1 ++ "." ++ d2 ++ "." ++ d3; d1; d2; d3]
          end
      end
  end.

Fixpoint digits_value (s : string) (acc : Z) : Z :=
  match s with
  | EmptyString => acc
  | String c rest =>
      digits_value rest (acc * 10 + (Z.of_nat (nat_of_ascii c) - 48))
  end.

(** Go's [int] is 64 bits wide; [strconv.Atoi] on an out-of-range digit
    string returns the largest [int] (with an error the code ignores). *)
Definition maxInt : Z := 2 ^ 63 - 1.

Definition Atoi (s : string) : Z := Z.min (digits_value s 0) maxInt.

End GoStrings.

Import GoStrings.

(* ------------------------------------------------------------------ *)
(** * safeMysqldUpgrade                                                *)
(* ------------------------------------------------------------------ *)

(** Go's [(bool, error)]: the error as its message, [None] for [nil]. *)
Definition GoBoolErr := (bool * option string)%type.

Definition safeMysqldUpgrade (currentImage desiredImage : string) : GoBoolErr :=
  if String.eqb currentImage "" || String.eqb desiredImage "" then (false, None)
  else if String.eqb desiredImage currentImage then (false, None)
  else
  match SplitN2 currentImage, SplitN2 desiredImage with
  | [_; current], [_; desired] =>
      match FindStringSubmatch current with
      | [_; c0; c1; c2] as curStrParts =>
          match FindStringSubmatch desired with
          | [_; d0; d1; d2] as dstStrParts =>
              if decide (curStrParts = dstStrParts) then (false, None)
              else
              let dst0 := Atoi d0 in let dst1 := Atoi d1 in let dst2 := Atoi d2 in
              let cur0 := Atoi c0 in let cur1 := Atoi c1 in let cur2 := Atoi c2 in
              if (dst0 <? cur0)%Z then
                (false, Some ("cannot downgrade major version from " ++ current ++ " to " ++ desired))
              else if (dst0 =? cur1)%Z && (dst1 <? cur1)%Z then
                (false, Some ("cannot downgrade minor version from " ++ current ++ " to " ++ desired))
              else if (dst0 =? 8)%Z && (dst1 =? 0)%Z && (cur0 =? 8)%Z && (cur1 =? 0)%Z then
                if (34 <=? dst2)%Z && (34 <=? cur2)%Z then (false, None)
                else if (dst2 <? cur2)%Z then
                  (false, Some ("cannot downgrade patch version from " ++ current ++ " to " ++ desired))
                else (negb (dst2 =? cur2)%Z, None)
              else (negb (dst0 =? cur0)%Z || negb (dst1 =? cur1)%Z, None)
          | _ => (true, None)
          end
      | _ => (true, None)
      end
  | _, _ => (false, None)
  end.

(* ------------------------------------------------------------------ *)
(** * Data model                                                       *)
(* ------------------------------------------------------------------ *)

(** [corev1.ConditionStatus]. *)
Inductive ConditionStatus := ConditionTrue | ConditionFalse | ConditionUnknown.

(** [topodatapb.TabletType]. *)
Inductive TabletType :=
  UNKNOWN | PRIMARY | REPLICA | RDONLY | BATCH | SPARE | EXPERIMENTAL
| BACKUP | RESTORE | DRAINED.

#[global] Instance TabletType_eq_dec : EqDecision TabletType.
Proof. solve_decision. Defined.

(** The fields of a tablet Pod the pass reads or writes. *)
Record Pod := mkPod {
  pod_name : string;
  pod_alias : string;                    (* vttablet.AliasFromPod, as a string *)
  pod_labels : gmap string string;
  pod_annotations : gmap string string;
  pod_ready : bool;                      (* podutils.IsPodReady *)
  pod_containers : list (string * string) (* (container name, image) *)
}.

(** [topo.TabletInfo]: alias (as its string form) and tablet type. *)
Record Tablet := mkTablet { tablet_alias : string; tablet_type : TabletType }.

#[global] Instance Tablet_eq_dec : EqDecision Tablet.
Proof. solve_decision. Defined.

(** [topo.ShardInfo]: only [PrimaryAlias] is read; [nil] is [None]. *)
Record Shard := mkShard { shard_primary : option string }.

(** One entry of [vts.Status.Tablets]. *)
Record TabletStatus := mkTabletStatus { ts_available : ConditionStatus }.

(** The fields of the VitessShard object the pass reads. *)
Record VitessShard := mkVitessShard {
  vts_status_tablets : gmap string TabletStatus;
  vts_using_external : bool;             (* vts.Spec.UsingExternalDatastore() *)
  vts_mysqld_image : string              (* vts.Spec.Images.Mysqld.Image() *)
}.

(* ------------------------------------------------------------------ *)
(** * The drain package                                                *)
(* ------------------------------------------------------------------ *)

Module drain.

(** Modelled from the spec: the drain package (not in the sources) keeps
    the drain markers as the presence of the "started", "acknowledged"
    and "finished" keys among the Pod annotations. *)
Definition startedAnnotation := "drain.planetscale.com/started".
Definition acknowledgedAnnotation := "drain.planetscale.com/acknowledged".
Definition finishedAnnotation := "drain.planetscale.com/finished".

(** Modelled from the spec: the drain states of the state machine. *)
Inductive State := NotDrainingState | DrainingState | AcknowledgedState | FinishedState.

#[global] Instance State_eq_dec : EqDecision State.
Proof. solve_decision. Defined.

(** Modelled from the spec: a marker is set when its key is present. *)
Definition has (k : string) (p : Pod) : bool := bool_decide (is_Some (pod_annotations p !! k)).

Definition Started (p : Pod) : bool := has startedAnnotation p.
Definition Acknowledged (p : Pod) : bool := has acknowledgedAnnotation p.
Definition Finished (p : Pod) : bool := has finishedAnnotation p.

Definition set_annotations (p : Pod) (a : gmap string string) : Pod :=
  mkPod (pod_name p) (pod_alias p) (pod_labels p) a (pod_ready p) (pod_containers p).

(** Modelled from the spec: setting a marker adds its key, clearing it
    removes the key; the other annotations are untouched. *)
Definition Finish (p : Pod) : Pod :=
  set_annotations p (<[finishedAnnotation := "true"]> (pod_annotations p)).
Definition Acknowledge (p : Pod) : Pod :=
  set_annotations p (<[acknowledgedAnnotation := "true"]> (pod_annotations p)).
Definition Unfinish (p : Pod) : Pod :=
  set_annotations p (delete finishedAnnotation (pod_annotations p)).
Definition Unacknowledge (p : Pod) : Pod :=
  set_annotations p (delete acknowledgedAnnotation (pod_annotations p)).

End drain.

Import drain.

(* ------------------------------------------------------------------ *)
(** * External collaborators                                           *)
(* ------------------------------------------------------------------ *)

(** A replication status probe result ([candidateInfo]); the
    [replication.Position] is an element of a total order, here [N]. *)
Record candidateInfo := mkCandidateInfo {
  ci_tablet : Tablet; ci_position : N; ci_err : option string }.

(** The world one pass runs in: Go's map iteration order, the drain
    package's state machine, the Kubernetes client, the tablet manager
    RPCs, the goroutine arrival order of the probe results, and the
    requeue delay defined elsewhere in the package. Each function is a
    deterministic picture of one run. *)
Record Env := mkEnv {
  env_map_iter : forall A : Type, gmap string A -> list (string * A);
  env_GetState : Pod -> State * option string;
  env_StateTransitions : gmap string State -> gmap string State;
  env_Update : Pod -> option string;                 (* client.Update *)
  env_ReplicationStatus : Tablet -> option N;        (* status + DecodePosition, None on error or timeout *)
  env_arrival : list candidateInfo -> list candidateInfo; (* receive order on the results channel *)
  env_ExecuteFetchAsDba : Tablet -> option string;
  env_PlannedReparentShard : string -> option string;
  env_TabletExternallyReparented : string -> option string;
  env_ChangeTabletType : string -> TabletType -> option string;
  env_replicationRequeueDelay : N
}.

(** Go ranges over a map in some order: every entry exactly once. *)
Definition map_iter_ok (env : Env) : Prop :=
  forall (A : Type) (m : gmap string A), env_map_iter env A m ≡ₚ map_to_list m.

(** Every probe goroutine sends exactly one result on the channel. *)
Definition arrival_ok (env : Env) : Prop :=
  forall l, env_arrival env l ≡ₚ l.

(* ------------------------------------------------------------------ *)
(** * Effects of a pass                                                *)
(* ------------------------------------------------------------------ *)

(** Go's [(T, error)] of a read. *)
Inductive GoResult (A : Type) := GoOk (a : A) | GoErr (e : string).
Arguments GoOk {A} a.
Arguments GoErr {A} e.

Inductive EventType := Warning | Normal.

(** What a pass does to the outside world, in order. [UpdatePod k p] is
    [client.Update] of the Pod object indexed under alias [k]. *)
Inductive Action :=
| Event (ty : EventType) (reason : string)
| UpdatePod (key : string) (pod : Pod)
| ExecuteFetchAsDba (alias : string)
| PlannedReparentShard (alias : string)
| TabletExternallyReparented (alias : string)
| ChangeTabletType (alias : string) (ty : TabletType)
| PlannedReparentCount (failed : bool).

(** Modelled from the spec: [results.Builder] (package not in the
    sources) accumulates a requeue delay and an error, and returns them
    as the [(reconcile.Result, error)] of the pass. *)
Record Builder := mkBuilder { b_requeue_after : option N; b_err : option string }.

Definition emptyBuilder := mkBuilder None None.
Definition builder_Error (e : string) (b : Builder) := mkBuilder (b_requeue_after b) (Some e).
Definition builder_RequeueAfter (d : N) (b : Builder) := mkBuilder (Some d) (b_err b).

(** How a pass ends: [reconcile.Result] (its [RequeueAfter]) and error,
    or a Go panic. *)
Inductive Outcome := Returned (requeueAfter : option N) (err : option string) | Panicked.

(** The pass's mutable view: the alias-to-Pod index (whose Pods are
    mutated in place), the actions so far and the result builder. *)
Record PassState := mkPassState {
  ps_pods : gmap string Pod; ps_log : list Action; ps_builder : Builder }.

Definition emit (a : Action) (s : PassState) : PassState :=
  mkPassState (ps_pods s) (ps_log s ++ [a]) (ps_builder s).
Definition with_builder (f : Builder -> Builder) (s : PassState) : PassState :=
  mkPassState (ps_pods s) (ps_log s) (f (ps_builder s)).
Definition store (k : string) (p : Pod) (s : PassState) : PassState :=
  mkPassState (<[k := p]> (ps_pods s)) (ps_log s) (ps_builder s).

(** [return resultBuilder.Result()]. *)
Definition finish (s : PassState) : Outcome * list Action :=
  (Returned (b_requeue_after (ps_builder s)) (b_err (ps_builder s)), ps_log s).

(** A loop either runs to its end or the pass panics inside it. *)
Inductive Flow (X : Type) := Go (x : X) (s : PassState) | Panic (s : PassState).
Arguments Go {X} x s.
Arguments Panic {X} s.

(** The alias-to-Pod index built from the Pod list (a later Pod with the
    same alias overwrites an earlier one). *)
Definition podIndex (podList : list Pod) : gmap string Pod :=
  fold_left (fun m p => <[pod_alias p := p]> m) podList ∅.

Definition MysqldContainerName := "mysqld".

(** The image of the first container named "mysqld", or "". *)
Definition mysqldImage (pod : Pod) : string :=
  match List.find (fun c => String.eqb (fst c) MysqldContainerName) (pod_containers pod) with
  | Some (_, img) => img
  | None => ""
  end.

Section Reconciler.

Variable env : Env.

Definition iter {A : Type} (m : gmap string A) : list (string * A) :=
  env_map_iter env A m.

(* ------------------------------------------------------------------ *)
(** * updateDrainStatus                                                *)
(* ------------------------------------------------------------------ *)

(** The Pod after the call (mutated in place), whether [client.Update]
    was issued, and the returned error; [None] is the panic. *)
Definition updateDrainStatus (pod : Pod) (drainStatus : State)
  : option (Pod * bool * option string) :=
  let step :=
    match drainStatus with
    | FinishedState =>
        if negb (Finished pod) then Some (Finish pod, true) else Some (pod, false)
    | AcknowledgedState =>
        if negb (Acknowledged pod) then Some (Acknowledge pod, true) else Some (pod, false)
    | NotDrainingState =>
        let '(p1, h1) := if Finished pod then (Unfinish pod, true) else (pod, false) in
        let '(p2, h2) := if Acknowledged p1 then (Unacknowledge p1, true) else (p1, h1) in
        Some (p2, h2)
    | DrainingState => None
    end in
  match step with
  | None => None
  | Some (p', hasUpdated) =>
      if negb hasUpdated then Some (p', false, None)
      else Some (p', true, env_Update env p')
  end.

(* ------------------------------------------------------------------ *)
(** * isShardHealthy                                                   *)
(* ------------------------------------------------------------------ *)

Fixpoint first_unavailable (l : list (string * TabletStatus)) : option string :=
  match l with
  | [] => None
  | (name, t) :: rest =>
      match ts_available t with
      | ConditionTrue => first_unavailable rest
      | _ => Some ("tablet " ++ name ++ " is not Available")
      end
  end.

Definition isShardHealthy (vts : VitessShard) : option string :=
  first_unavailable (iter (vts_status_tablets vts)).


(* ------------------------------------------------------------------ *)
(** * candidatePrimary                                                 *)
(* ------------------------------------------------------------------ *)

(** Modelled from the spec: the label naming a tablet's pool and the
    designated external-primary pool (constants of the apis package). *)
Definition TabletTypeLabel := "planetscale.com/tablet-type".
Definition ExternalMasterTabletPoolName := "externalmaster".

(** The filter of the first loop of [candidatePrimary]: [Some tablet]
    when it is appended to [candidates]. *)
Definition eligible (primaryAlias : string) (pods : gmap string Pod)
    (usingExternal : bool) (tabletAliasStr : string) (tablet : Tablet) : bool :=
  if String.eqb (tablet_alias tablet) primaryAlias then false else
  match pods !! tabletAliasStr with
  | None => false
  | Some pod =>
      (if usingExternal then
         bool_decide (pod_labels pod !! TabletTypeLabel = Some ExternalMasterTabletPoolName)
         && (bool_decide (tablet_type tablet = SPARE) || bool_decide (tablet_type tablet = PRIMARY))
       else bool_decide (tablet_type tablet = REPLICA))
      && pod_ready pod
      && negb (Started pod || Acknowledged pod || Finished pod)
  end.

Fixpoint collect_candidates (primaryAlias : string) (pods : gmap string Pod)
    (usingExternal : bool) (l : list (string * Tablet)) : list Tablet :=
  match l with
  | [] => []
  | (k, t) :: rest =>
      if eligible primaryAlias pods usingExternal k t
      then t :: collect_candidates primaryAlias pods usingExternal rest
      else collect_candidates primaryAlias pods usingExternal rest
  end.

(** The goroutine of one candidate: its [candidateInfo]. *)
Definition probe (tablet : Tablet) : candidateInfo :=
  match env_ReplicationStatus env tablet with
  | Some pos => mkCandidateInfo tablet pos None
  | None => mkCandidateInfo tablet 0 (Some "replication status failed")
  end.

(** [replication.Position] methods on the [N] model. *)
Definition IsZero (p : N) : bool := (p =? 0)%N.
Definition AtLeast (p other : N) : bool := (other <=? p)%N.

(** The receive loop: [bestCandidate] and [highestPosition]. *)
Fixpoint read_results (rs : list candidateInfo) (best : option Tablet) (highest : N)
  : option Tablet * N :=
  match rs with
  | [] => (best, highest)
  | r :: rest =>
      match ci_err r with
      | Some _ => read_results rest best highest
      | None =>
          if IsZero highest || negb (AtLeast highest (ci_position r))
          then read_results rest (Some (ci_tablet r)) (ci_position r)
          else read_results rest best highest
      end
  end.

Definition candidatePrimary (primaryAlias : string) (tablets : gmap string Tablet)
    (pods : gmap string Pod) (usingExternal : bool) : option Tablet :=
  match collect_candidates primaryAlias pods usingExternal (iter tablets) with
  | [] => None
  | (first :: _) as candidates =>
      let results := env_arrival env (map probe candidates) in
      match fst (read_results results None 0) with
      | Some best => Some best
      | None => Some first
      end
  end.

(* ------------------------------------------------------------------ *)
(** * disableFastShutdown and handleExternalReparent                   *)
(* ------------------------------------------------------------------ *)

Fixpoint disableFastShutdown (l : list (string * Pod)) (tablets : gmap string Tablet)
    (desiredImage : string) (s : PassState) : option string * PassState :=
  match l with
  | [] => (None, s)
  | (tabletAlias, pod) :: rest =>
      match tablets !! tabletAlias with
      | None => disableFastShutdown rest tablets desiredImage s
      | Some tablet =>
          match safeMysqldUpgrade (mysqldImage pod) desiredImage with
          | (_, Some e) => (Some e, s)
          | (false, None) => disableFastShutdown rest tablets desiredImage s
          | (true, None) =>
              let s1 := emit (ExecuteFetchAsDba tabletAlias) s in
              match env_ExecuteFetchAsDba env tablet with
              | Some e =>
                  (Some ("failed to disable fast shutdown for tablet " ++ tabletAlias ++ ": " ++ e), s1)
              | None =>
                  disableFastShutdown rest tablets desiredImage (emit (Event Normal "MySQL_Upgrade") s1)
              end
          end
      end
  end.

Definition handleExternalReparent (newPrimaryAlias oldPrimaryAlias : string) (s : PassState)
  : option string * PassState :=
  let s1 := emit (TabletExternallyReparented newPrimaryAlias) s in
  match env_TabletExternallyReparented env newPrimaryAlias with
  | Some e => (Some e, s1)
  | None =>
      (env_ChangeTabletType env oldPrimaryAlias SPARE, emit (ChangeTabletType oldPrimaryAlias SPARE) s1)
  end.

(* ------------------------------------------------------------------ *)
(** * reconcileDrain                                                   *)
(* ------------------------------------------------------------------ *)

(** Store the Pod mutated by [updateDrainStatus], record the
    [client.Update] it issued, and report its error. *)
Definition record_update (k : string) (r : Pod * bool * option string) (s : PassState) : PassState :=
  let '(p', issued, err) := r in
  let s1 := store k p' s in
  let s2 := if issued then emit (UpdatePod k p') s1 else s1 in
  match err with
  | Some e => with_builder (builder_Error e) (emit (Event Warning "UpdateFailed") s2)
  | None => s2
  end.

(** Phase 2: the loop that builds [drains], detects aborted drains and
    clears the markers of Pods without a drain request. *)
Fixpoint loadDrainState (l : list (string * Pod)) (drains : gmap string State)
    (abortingDrain : bool) (s : PassState) : Flow (gmap string State * bool) :=
  match l with
  | [] => Go (drains, abortingDrain) s
  | (tabletAliasStr, pod) :: rest =>
      if Started pod then
        let '(st, err) := env_GetState env pod in
        let s1 := match err with
                  | Some _ => emit (Event Warning "InvalidDrainState") s
                  | None => s
                  end in
        loadDrainState rest (<[tabletAliasStr := st]> drains) abortingDrain s1
      else
        let partial := Acknowledged pod || Finished pod in
        let s1 := if partial then emit (Event Warning "AbortingDrain") s else s in
        match updateDrainStatus pod NotDrainingState with
        | None => Panic s1
        | Some r => loadDrainState rest drains (abortingDrain || partial) (record_update tabletAliasStr r s1)
        end
  end.

(** Phase 3: apply the state machine's output, skipping "finished" for
    the primary. A key with no Pod is a nil Pod, whose use panics. *)
Fixpoint applyTransitions (primaryAliasStr : string) (l : list (string * State))
    (acknowledgedDrain : bool) (s : PassState) : Flow bool :=
  match l with
  | [] => Go acknowledgedDrain s
  | (tabletAliasStr, state) :: rest =>
      if bool_decide (state = FinishedState) && String.eqb tabletAliasStr primaryAliasStr
      then applyTransitions primaryAliasStr rest acknowledgedDrain s
      else
        let acked := acknowledgedDrain || bool_decide (state = AcknowledgedState) in
        match ps_pods s !! tabletAliasStr with
        | None => Panic s
        | Some pod =>
            match updateDrainStatus pod state with
            | None => Panic s
            | Some r => applyTransitions primaryAliasStr rest acked (record_update tabletAliasStr r s)
            end
        end
  end.

Definition isFinished (m : gmap string State) (k : string) : bool :=
  bool_decide (m !! k = Some FinishedState).

(** Phase 5: decide whether to reparent, pick a candidate, reparent. *)
Definition reparentPhase (vts : VitessShard) (primaryAliasStr : string)
    (tablets : gmap string Tablet) (drains transitions : gmap string State)
    (acknowledgedDrain : bool) (s : PassState) : Outcome * list Action :=
  if acknowledgedDrain && negb (isFinished drains primaryAliasStr) then
    finish (emit (Event Normal "NotReparentingPrimary") s)
  else if negb (isFinished drains primaryAliasStr) && negb (isFinished transitions primaryAliasStr) then
    finish (emit (Event Normal "NotReparentingPrimary") s)
  else
  match candidatePrimary primaryAliasStr tablets (ps_pods s) (vts_using_external vts) with
  | None =>
      finish (with_builder (builder_RequeueAfter (env_replicationRequeueDelay env))
                (emit (Event Warning "DrainBlocked") s))
  | Some newPrimary =>
      let '(reparentErr, s1) :=
        if vts_using_external vts
        then handleExternalReparent (tablet_alias newPrimary) primaryAliasStr s
        else (env_PlannedReparentShard env (tablet_alias newPrimary),
              emit (PlannedReparentShard (tablet_alias newPrimary)) s) in
      let s2 := match reparentErr with
                | Some _ => emit (Event Warning "PlannedReparentFailed") s1
                | None => emit (Event Normal "PlannedReparent") s1
                end in
      finish (emit (PlannedReparentCount (bool_decide (is_Some reparentErr))) s2)
  end.

(** Phases 2 to 5, once the shard is healthy and has a primary. *)
Definition drainPhases (vts : VitessShard) (primaryAliasStr : string)
    (tablets : gmap string Tablet) (s : PassState) : Outcome * list Action :=
  match loadDrainState (iter (ps_pods s)) ∅ false s with
  | Panic s1 => (Panicked, ps_log s1)
  | Go (drains, abortingDrain) s1 =>
      if bool_decide (drains = ∅) then finish s1
      else if abortingDrain then finish (emit (Event Warning "AbortingDrain") s1)
      else
      let transitions := env_StateTransitions env drains in
      match applyTransitions primaryAliasStr (iter transitions) false s1 with
      | Panic s2 => (Panicked, ps_log s2)
      | Go acknowledgedDrain s2 =>
          match disableFastShutdown (iter (ps_pods s2)) tablets (vts_mysqld_image vts) s2 with
          | (Some e, s3) =>
              finish (with_builder (builder_Error e) (emit (Event Warning "MysqldSafeUpgradeFailed") s3))
          | (None, s3) =>
              reparentPhase vts primaryAliasStr tablets drains transitions acknowledgedDrain s3
          end
      end
  end.

(** The check that the shard has a primary ([shard.HasPrimary()]). *)
Definition primaryGate (vts : VitessShard) (shard : Shard) (tablets : gmap string Tablet)
    (s : PassState) : Outcome * list Action :=
  match shard_primary shard with
  | None => finish (emit (Event Warning "NotReconcilingDrain") s)
  | Some primaryAliasStr => drainPhases vts primaryAliasStr tablets s
  end.

(** Phase 1: the shard health check. *)
Definition healthGate (vts : VitessShard) (shard : Shard) (tablets : gmap string Tablet)
    (s : PassState) : Outcome * list Action :=
  match isShardHealthy vts with
  | Some _ => finish (emit (Event Warning "NotReconcilingDrain") s)
  | None => primaryGate vts shard tablets s
  end.

(** One pass, given the results of its three reads: the Pod list, the
    shard record and the tablet map. *)
Definition reconcileDrain (vts : VitessShard) (podListR : GoResult (list Pod))
    (shardR : GoResult Shard) (tabletsR : GoResult (gmap string Tablet))
  : Outcome * list Action :=
  let s0 := mkPassState ∅ [] emptyBuilder in
  match podListR with
  | GoErr e => finish (with_builder (builder_Error e) (emit (Event Warning "ListFailed") s0))
  | GoOk podList =>
      match shardR with
      | GoErr _ =>
          finish (with_builder (builder_RequeueAfter (env_replicationRequeueDelay env))
                    (emit (Event Warning "TopoGetFailed") s0))
      | GoOk shard =>
          match tabletsR with
          | GoErr _ =>
              finish (with_builder (builder_RequeueAfter (env_replicationRequeueDelay env))
                        (emit (Event Warning "TopoGetFailed") s0))
          | GoOk tablets =>
              healthGate vts shard tablets (mkPassState (podIndex podList) [] emptyBuilder)
          end
      end
  end.

End Reconciler.

(* ------------------------------------------------------------------ *)
(** * A concrete world for runs on small inputs                        *)
(* ------------------------------------------------------------------ *)

Module Runs.

(** Modelled from the spec: [drain.GetState] reads the furthest marker. *)
Definition GetState (p : Pod) : State * option string :=
  if Finished p then (FinishedState, None)
  else if Acknowledged p then (AcknowledgedState, None)
  else (DrainingState, None).

(** A world where every call succeeds, maps are ranged over in key order
    and probe results arrive in the order of the candidates. *)
Definition world (transitions : gmap string State -> gmap string State)
    (positions : Tablet -> option N) : Env :=
  mkEnv (fun A m => map_to_list m) GetState transitions (fun _ => None) positions
        (fun l => l) (fun _ => None) (fun _ => None) (fun _ => None) (fun _ _ => None) 10.

Definition marks (l : list string) : gmap string string :=
  list_to_map (map (fun k => (k, "true")) l).

Definition pod (alias : string) (ready : bool) (markers : list string) : Pod :=
  mkPod ("vttablet-" ++ alias) alias ∅ (marks markers) ready [("mysqld", "mysql:8.0.36")].

Definition shardVts : VitessShard := mkVitessShard ∅ false "mysql:8.0.36".

Definition tabletsOf (l : list (string * TabletType)) : gmap string Tablet :=
  list_to_map (map (fun '(a, t) => (a, mkTablet a t)) l).

End Runs.

(* ------------------------------------------------------------------ *)
(** * Vocabulary of the statements                                     *)
(* ------------------------------------------------------------------ *)

(** The annotations of a Pod already say [st]. *)
Definition encodesState (pod : Pod) (st : State) : bool :=
  match st with
  | FinishedState => Finished pod
  | AcknowledgedState => Acknowledged pod
  | NotDrainingState => negb (Finished pod || Acknowledged pod)
  | DrainingState => false
  end.

(** A probe result that arrived without error. *)
Definition succeeded (r : candidateInfo) : bool :=
  match ci_err r with None => true | Some _ => false end.

(** The furthest position among the results without error (0 if none). *)
Definition maxPos (rs : list candidateInfo) : N :=
  fold_right (fun r m => if succeeded r then N.max (ci_position r) m else m) 0%N rs.

(** The first arrival without error at position [m]. *)
Definition first_at (m : N) (rs : list candidateInfo) : option candidateInfo :=
  find (fun r => succeeded r && (ci_position r =? m)%N) rs.

(** The tablet of the last result without error. *)
Definition last_success (rs : list candidateInfo) : option Tablet :=
  fold_right (fun r acc => match acc with
                           | Some t => Some t
                           | None => if succeeded r then Some (ci_tablet r) else None
                           end) None rs.

(** A Pod with its acknowledged and finished markers cleared. *)
Definition clearMarkers (p : Pod) : Pod := Unacknowledge (Unfinish p).

(** The spec's run: candidates [A; B; C] = zone1-103, zone1-101,
    zone1-102 answer with positions 5, 9 and 3; B is chosen. *)
Definition race_positions (t : Tablet) : option N :=
  if String.eqb (tablet_alias t) "zone1-103" then Some 5%N
  else if String.eqb (tablet_alias t) "zone1-101" then Some 9%N
  else if String.eqb (tablet_alias t) "zone1-102" then Some 3%N
  else None.

(** The state a loop ends in, whether it ran through or panicked. *)
Definition flow_state {X : Type} (f : Flow X) : PassState :=
  match f with Go _ s => s | Panic s => s end.

(** The primary's Pod carried the finished marker when the pass began. *)
Definition finished_before (idx : gmap string Pod) (prim : string) : Prop :=
  exists p0, idx !! prim = Some p0 /\ Finished p0 = true.

(** An action that does not put a new finished marker on the primary. *)
Definition no_new_finish (idx : gmap string Pod) (prim : string) (a : Action) : Prop :=
  forall p', a = UpdatePod prim p' -> Finished p' = true -> finished_before idx prim.

Definition primary_inv (idx : gmap string Pod) (prim : string) (s : PassState) : Prop :=
  (forall p, ps_pods s !! prim = Some p -> Finished p = true -> finished_before idx prim) /\
  Forall (no_new_finish idx prim) (ps_log s).

(** The actions allowed in a pass that found an aborted drain: events,
    and the clearing of markers on a Pod without a drain request. *)
Definition freeze_action (idx : gmap string Pod) (a : Action) : Prop :=
  match a with
  | Event _ _ => True
  | UpdatePod k p' => exists p, idx !! k = Some p /\ Started p = false /\ p' = clearMarkers p
  | _ => False
  end.

(* ------------------------------------------------------------------ *)
(** * Vocabulary of the further properties                            *)
(* ------------------------------------------------------------------ *)

(** A non-empty run of decimal digits ([\d+]). *)
Fixpoint all_digits (s : string) : bool :=
  match s with
  | EmptyString => true
  | String c rest => is_digit c && all_digits rest
  end.

Definition digit_string (d : string) : bool :=
  negb (String.eqb d "") && all_digits d.

Definition no_digit_start (s : string) : bool :=
  match s with String c _ => negb (is_digit c) | EmptyString => true end.

Definition version_tag (tag d0 d1 d2 : string) : Prop :=
  exists sfx, tag = d0 ++ "." ++ d1 ++ "." ++ d2 ++ sfx /\
    digit_string d0 = true /\ digit_string d1 = true /\ digit_string d2 = true /\
    no_digit_start sfx = true.

Definition version_decision (current desired : string) (cur0 cur1 cur2 dst0 dst1 dst2 : Z)
  : GoBoolErr :=
  if (dst0 <? cur0)%Z then
    (false, Some ("cannot downgrade major version from " ++ current ++ " to " ++ desired))
  else if (dst0 =? cur1)%Z && (dst1 <? cur1)%Z then
    (false, Some ("cannot downgrade minor version from " ++ current ++ " to " ++ desired))
  else if (dst0 =? 8)%Z && (dst1 =? 0)%Z && (cur0 =? 8)%Z && (cur1 =? 0)%Z then
    if (34 <=? dst2)%Z && (34 <=? cur2)%Z then (false, None)
    else if (dst2 <? cur2)%Z then
      (false, Some ("cannot downgrade patch version from " ++ current ++ " to " ++ desired))
    else (negb (dst2 =? cur2)%Z, None)
  else (negb (dst0 =? cur0)%Z || negb (dst1 =? cur1)%Z, None).

Definition same_but_markers (p0 p : Pod) : Prop :=
  pod_name p = pod_name p0 /\ pod_alias p = pod_alias p0 /\ pod_labels p = pod_labels p0 /\
  pod_ready p = pod_ready p0 /\ pod_containers p = pod_containers p0 /\
  forall k, k <> finishedAnnotation -> k <> acknowledgedAnnotation ->
    pod_annotations p !! k = pod_annotations p0 !! k.

Definition fast_shutdown_actions (tablets : gmap string Tablet) (desired : string)
    (kp : string * Pod) : list Action :=
  match tablets !! kp.1 with
  | Some _ =>
      if bool_decide (safeMysqldUpgrade (mysqldImage kp.2) desired = (true, None))
      then [ExecuteFetchAsDba kp.1; Event Normal "MySQL_Upgrade"] else []
  | None => []
  end.

Definition fast_shutdown_ok (tablets : gmap string Tablet) (desired : string)
    (kp : string * Pod) : Prop :=
  is_Some (tablets !! kp.1) -> snd (safeMysqldUpgrade (mysqldImage kp.2) desired) = None.

Definition reparent_target (a : Action) : option string :=
  match a with
  | PlannedReparentShard x => Some x
  | TabletExternallyReparented x => Some x
  | _ => None
  end.

(** The result builder holds no requeue delay. *)
Definition no_requeue (s : PassState) : Prop := b_requeue_after (ps_builder s) = None.

Definition phase24_action (a : Action) : Prop :=
  match a with Event _ _ | UpdatePod _ _ | ExecuteFetchAsDba _ => True | _ => False end.

Definition bookkeeping (a : Action) : Prop :=
  match a with Event _ _ | PlannedReparentCount _ => True | _ => False end.

Definition reparent_calls (env : Env) (ext : bool) (prim : string) (np : Tablet) (mid : list Action) : Prop :=
  (ext = false /\ mid = [PlannedReparentShard (tablet_alias np)]) \/
  (ext = true /\ (mid = [TabletExternallyReparented (tablet_alias np)] \/
                  (env_TabletExternallyReparented env (tablet_alias np) = None /\
                   mid = [TabletExternallyReparented (tablet_alias np); ChangeTabletType prim SPARE]))).

Definition drain_input (env : Env) (idx : gmap string Pod) : gmap string State :=
  omap (fun p => if Started p then Some (fst (env_GetState env p)) else None) idx.

Definition written_from (idx : gmap string Pod) (a : Action) : Prop :=
  forall k p', a = UpdatePod k p' -> exists p0, idx !! k = Some p0 /\ same_but_markers p0 p'.

Definition pods_inv (idx : gmap string Pod) (s : PassState) : Prop :=
  (forall k, is_Some (ps_pods s !! k) <-> is_Some (idx !! k)) /\
  (forall k p, ps_pods s !! k = Some p -> exists p0, idx !! k = Some p0 /\ same_but_markers p0 p) /\
  Forall (written_from idx) (ps_log s).

(** Small inputs for the runs of the further properties. *)
Module Samples.

(** A world with no state-machine output and no probe position. *)
Definition quiet : Env := Runs.world (fun _ => ∅) (fun _ => None).

(** A world whose state machine proposes "finished" for zone1-100. *)
Definition finishPrimary : Env :=
  Runs.world (fun _ => {["zone1-100" := FinishedState]}) (fun _ => Some 5%N).

(** A world whose state machine proposes "draining" for zone1-101. *)
Definition drainOther : Env :=
  Runs.world (fun _ => {["zone1-101" := DrainingState]}) (fun _ => Some 5%N).

Definition shard100 : Shard := mkShard (Some "zone1-100").

(** A ready Pod of the external-primary pool. *)
Definition extPod : Pod :=
  mkPod "vttablet-zone1-101" "zone1-101" {[TabletTypeLabel := ExternalMasterTabletPoolName]} ∅ true
        [("mysqld", "mysql:8.0.36")].

Definition extVts : VitessShard := mkVitessShard ∅ true "mysql:8.0.36".

Definition extPods : list Pod := [Runs.pod "zone1-100" true [startedAnnotation]; extPod].

Definition extTablets : gmap string Tablet :=
  Runs.tabletsOf [("zone1-100", PRIMARY); ("zone1-101", SPARE)].

Definition ackPod : Pod := Runs.pod "zone1-101" true [acknowledgedAnnotation].

Definition upgradeList : list (string * Pod) := [("zone1-101", Runs.pod "zone1-101" true [])].

Definition upgradeTablets : gmap string Tablet := Runs.tabletsOf [("zone1-101", REPLICA)].

Definition s0 : PassState := mkPassState ∅ [] emptyBuilder.

(** A world whose state machine acknowledges the drain of zone1-101. *)
Definition ackOther : Env :=
  Runs.world (fun _ => {["zone1-101" := AcknowledgedState]}) (fun _ => Some 5%N).

(** The primary zone1-100 and a replica zone1-101 with a drain request. *)
Definition drainPods : list Pod :=
  [Runs.pod "zone1-100" true []; Runs.pod "zone1-101" true [startedAnnotation]].

Definition drainTablets : gmap string Tablet :=
  Runs.tabletsOf [("zone1-100", PRIMARY); ("zone1-101", REPLICA)].

End Samples.

(* ================================================================== *)
(** * Properties                                                       *)
(* ================================================================== *)

(* ------------------------------------------------------------------ *)
(** ** The version gate                                                *)
(* ------------------------------------------------------------------ *)

Lemma split_first_colon_tagged (r v : string) :
  split_first_colon r = None -> split_first_colon (r ++ String ":" v) = Some (r, v).
Proof.
  induction r as [|c r IH]; simpl; [reflexivity|].
  destruct (Ascii.eqb c ":"); [discriminate|].
  destruct (split_first_colon r) as [[a b]|]; [discriminate|].
  intros _. rewrite IH; reflexivity.
Qed.

Lemma SplitN2_tagged (r v : string) :
  split_first_colon r = None -> SplitN2 (r ++ String ":" v) = [r; v].
Proof. intros H. unfold SplitN2. rewrite split_first_colon_tagged; auto. Qed.

Lemma tagged_nonempty (r v : string) : String.eqb (r ++ String ":" v) "" = false.
Proof. destruct r; reflexivity. Qed.

Lemma tagged_neq (r1 v1 r2 v2 : string) :
  split_first_colon r1 = None -> split_first_colon r2 = None -> v1 <> v2 ->
  String.eqb (r2 ++ String ":" v2) (r1 ++ String ":" v1) = false.
Proof.
  intros H1 H2 Hv. apply String.eqb_neq. intros E.
  apply (f_equal split_first_colon) in E.
  rewrite !split_first_colon_tagged in E by assumption. congruence.
Qed.

(** The gate only looks at the tags of two tagged images. *)
Lemma safeMysqldUpgrade_tags (r1 v1 r2 v2 : string) :
  split_first_colon r1 = None -> split_first_colon r2 = None -> v1 <> v2 ->
  safeMysqldUpgrade (r1 ++ String ":" v1) (r2 ++ String ":" v2)
  = safeMysqldUpgrade (String ":" v1) (String ":" v2).
Proof.
  intros H1 H2 Hv. unfold safeMysqldUpgrade.
  rewrite !tagged_nonempty, (tagged_neq r1 v1 r2 v2) by assumption.
  assert (E : String.eqb (String ":" v2) (String ":" v1) = false)
    by exact (tagged_neq "" v1 "" v2 eq_refl eq_refl Hv).
  rewrite E. cbn [String.eqb orb].
  rewrite (SplitN2_tagged r1), (SplitN2_tagged r2) by assumption.
  reflexivity.
Qed.

(** C3 (code_bug): the minor-downgrade guard compares the desired major
    number with the current MINOR number, so the downgrade from 8.1.0 to
    8.0.0 (equal majors, smaller desired minor) is not rejected: the gate
    answers "safe mode required" with no error. *)
Theorem safeMysqldUpgrade_minor_downgrade_not_rejected :
  safeMysqldUpgrade "mysql:8.1.0" "mysql:8.0.0" = (true, None).
Proof. reflexivity. Qed.

(** Major downgrades are rejected, as the claim expects. *)
Example safeMysqldUpgrade_major_downgrade :
  safeMysqldUpgrade "mysql:8.0.36" "mysql:5.7.44"
  = (false, Some "cannot downgrade major version from 8.0.36 to 5.7.44").
Proof. reflexivity. Qed.

(** C5: for images "repo:version" whose repository part has no ':',
    the spec's four version pairs give: 8.0.33 -> 8.0.34 safe mode;
    8.0.35 -> 8.0.36 no safe mode; 8.0.34 -> 8.0.20 a patch-downgrade
    error; 5.7.9 -> 8.0.1 safe mode. *)
Theorem safeMysqldUpgrade_tagged_examples (r1 r2 : string) :
  split_first_colon r1 = None -> split_first_colon r2 = None ->
  safeMysqldUpgrade (r1 ++ ":8.0.33") (r2 ++ ":8.0.34") = (true, None) /\
  safeMysqldUpgrade (r1 ++ ":8.0.35") (r2 ++ ":8.0.36") = (false, None) /\
  safeMysqldUpgrade (r1 ++ ":8.0.34") (r2 ++ ":8.0.20")
    = (false, Some "cannot downgrade patch version from 8.0.34 to 8.0.20") /\
  safeMysqldUpgrade (r1 ++ ":5.7.9") (r2 ++ ":8.0.1") = (true, None).
Proof.
  intros H1 H2.
  repeat split; rewrite safeMysqldUpgrade_tags by (assumption || discriminate);
    reflexivity.
Qed.

Lemma safeMysqldUpgrade_tagged_examples_witness :
  split_first_colon "vitess/mysql" = None /\ split_first_colon "vitess/mysql" = None /\
  safeMysqldUpgrade "vitess/mysql:8.0.33" "vitess/mysql:8.0.34" = (true, None).
Proof.
  split; [reflexivity|]. split; [reflexivity|].
  exact (proj1 (safeMysqldUpgrade_tagged_examples "vitess/mysql" "vitess/mysql"
                  eq_refl eq_refl)).
Defined.

(** C8 (counterexample): the current image's tag "abc" does not parse,
    but the desired image has no ':' tag at all, and the gate then treats
    the version as unknown: no safe mode. *)
Lemma safeMysqldUpgrade_untagged_unparseable :
  safeMysqldUpgrade "mysql:abc" "mysql" = (false, None).
Proof. reflexivity. Qed.

(** C8 (amended): for two non-empty, different images that both carry a
    ':' tag (the text after the first ':'), if either tag does not begin
    with digits.digits.digits the gate answers "safe mode required" with
    no error; if either image has no ':' it answers "no safe mode", with
    no error. *)
Theorem safeMysqldUpgrade_unparseable_tag (current desired : string) :
  current <> "" -> desired <> "" -> current <> desired ->
  (forall cr cv dr dv,
     SplitN2 current = [cr; cv] -> SplitN2 desired = [dr; dv] ->
     FindStringSubmatch cv = [] \/ FindStringSubmatch dv = [] ->
     safeMysqldUpgrade current desired = (true, None)) /\
  (SplitN2 current = [current] \/ SplitN2 desired = [desired] ->
   safeMysqldUpgrade current desired = (false, None)).
Proof.
  intros Hc Hd Hne.
  assert (E1 : String.eqb current "" = false) by (apply String.eqb_neq; exact Hc).
  assert (E2 : String.eqb desired "" = false) by (apply String.eqb_neq; exact Hd).
  assert (E3 : String.eqb desired current = false)
    by (apply String.eqb_neq; intros E; apply Hne; symmetry; exact E).
  split.
  - intros cr cv dr dv Sc Sd Hparse. unfold safeMysqldUpgrade.
    rewrite E1, E2, E3, Sc, Sd. cbn [orb].
    destruct Hparse as [Pc | Pd].
    + rewrite Pc. reflexivity.
    + rewrite Pd.
      destruct (FindStringSubmatch cv) as [|? [|? [|? [|? [|? ?]]]]]; reflexivity.
  - intros Hsplit. unfold safeMysqldUpgrade. rewrite E1, E2, E3. cbn [orb].
    destruct Hsplit as [Sc | Sd].
    + rewrite Sc. destruct (SplitN2 desired) as [|? [|? [|? ?]]]; reflexivity.
    + rewrite Sd. destruct (SplitN2 current) as [|? [|? [|? ?]]]; reflexivity.
Qed.

Lemma safeMysqldUpgrade_unparseable_tag_witness :
  "mysql:latest" <> "" /\ "mysql:8.0.36" <> "" /\ "mysql:latest" <> "mysql:8.0.36" /\
  safeMysqldUpgrade "mysql:latest" "mysql:8.0.36" = (true, None).
Proof.
  assert (Hc : "mysql:latest" <> "") by discriminate.
  assert (Hd : "mysql:8.0.36" <> "") by discriminate.
  assert (Hn : "mysql:latest" <> "mysql:8.0.36") by discriminate.
  split; [exact Hc|]. split; [exact Hd|]. split; [exact Hn|].
  apply (proj1 (safeMysqldUpgrade_unparseable_tag "mysql:latest" "mysql:8.0.36" Hc Hd Hn)
           "mysql" "latest" "mysql" "8.0.36"); [reflexivity | reflexivity | left; reflexivity].
Defined.

(* ------------------------------------------------------------------ *)
(** ** Read failures                                                   *)
(* ------------------------------------------------------------------ *)

(** C4 (counterexample): when listing the Pods fails, the pass returns
    the error itself and no requeue delay. *)
Lemma reconcileDrain_list_failure_is_error :
  reconcileDrain (Runs.world (fun _ => ∅) (fun _ => None)) Runs.shardVts
    (GoErr "pod cache unavailable") (GoOk (mkShard (Some "zone1-100"))) (GoOk ∅)
  = (Returned None (Some "pod cache unavailable"), [Event Warning "ListFailed"]).
Proof. reflexivity. Qed.

(** C4 (amended): a failed read ends the pass with one warning event and
    no other action. A failed shard-record or tablet-map read returns
    "requeue after the fixed delay" with no error; a failed Pod list
    returns its error, with no requeue delay. *)
Theorem reconcileDrain_read_failures (env : Env) (vts : VitessShard) :
  (forall e shardR tabletsR,
     reconcileDrain env vts (GoErr e) shardR tabletsR
     = (Returned None (Some e), [Event Warning "ListFailed"])) /\
  (forall pods e tabletsR,
     reconcileDrain env vts (GoOk pods) (GoErr e) tabletsR
     = (Returned (Some (env_replicationRequeueDelay env)) None, [Event Warning "TopoGetFailed"])) /\
  (forall pods shard e,
     reconcileDrain env vts (GoOk pods) (GoOk shard) (GoErr e)
     = (Returned (Some (env_replicationRequeueDelay env)) None, [Event Warning "TopoGetFailed"])).
Proof. repeat split; reflexivity. Qed.

(* ------------------------------------------------------------------ *)
(** ** Drain markers and updateDrainStatus                             *)
(* ------------------------------------------------------------------ *)

Section Markers.

Lemma has_insert_same (k : string) (v : string) (p : Pod) :
  has k (set_annotations p (<[k := v]> (pod_annotations p))) = true.
Proof. unfold has; simpl. rewrite lookup_insert_eq. reflexivity. Qed.

Lemma has_delete_same (k : string) (p : Pod) :
  has k (set_annotations p (delete k (pod_annotations p))) = false.
Proof. unfold has; simpl. rewrite lookup_delete_eq. reflexivity. Qed.

Lemma has_insert_other (k k' v : string) (p : Pod) :
  k <> k' -> has k (set_annotations p (<[k' := v]> (pod_annotations p))) = has k p.
Proof. intros H. unfold has; simpl. rewrite lookup_insert_ne by congruence. reflexivity. Qed.

Lemma has_delete_other (k k' : string) (p : Pod) :
  k <> k' -> has k (set_annotations p (delete k' (pod_annotations p))) = has k p.
Proof. intros H. unfold has; simpl. rewrite lookup_delete_ne by congruence. reflexivity. Qed.

Lemma finished_ne_acknowledged : finishedAnnotation <> acknowledgedAnnotation.
Proof. discriminate. Qed.

Lemma Finished_Finish p : Finished (Finish p) = true.
Proof. apply has_insert_same. Qed.
Lemma Acknowledged_Acknowledge p : Acknowledged (Acknowledge p) = true.
Proof. apply has_insert_same. Qed.
Lemma Finished_Acknowledge p : Finished (Acknowledge p) = Finished p.
Proof. apply has_insert_other. exact finished_ne_acknowledged. Qed.
Lemma Finished_Unfinish p : Finished (Unfinish p) = false.
Proof. apply has_delete_same. Qed.
Lemma Acknowledged_Unacknowledge p : Acknowledged (Unacknowledge p) = false.
Proof. apply has_delete_same. Qed.
Lemma Finished_Unacknowledge p : Finished (Unacknowledge p) = Finished p.
Proof. apply has_delete_other. exact finished_ne_acknowledged. Qed.
Lemma Acknowledged_Unfinish p : Acknowledged (Unfinish p) = Acknowledged p.
Proof. apply has_delete_other. intros E; symmetry in E; exact (finished_ne_acknowledged E). Qed.

End Markers.

Lemma updateDrainStatus_encodes (env : Env) (pod : Pod) (st : State) :
  st <> DrainingState ->
  exists p1 w e, updateDrainStatus env pod st = Some (p1, w, e) /\ encodesState p1 st = true.
Proof.
  intros Hst. unfold updateDrainStatus, encodesState.
  destruct st; [| congruence | |].
  - destruct (Finished pod) eqn:F; simpl.
    + destruct (Acknowledged (Unfinish pod)) eqn:A; simpl.
      * eexists _, _, _; split; [reflexivity|].
        rewrite Finished_Unacknowledge, Finished_Unfinish, Acknowledged_Unacknowledge. reflexivity.
      * eexists _, _, _; split; [reflexivity|]. rewrite Finished_Unfinish, A. reflexivity.
    + destruct (Acknowledged pod) eqn:A; simpl.
      * eexists _, _, _; split; [reflexivity|].
        rewrite Finished_Unacknowledge, F, Acknowledged_Unacknowledge. reflexivity.
      * eexists _, _, _; split; [reflexivity|]. rewrite F, A. reflexivity.
  - destruct (Acknowledged pod) eqn:A; simpl.
    + eexists _, _, _; split; [reflexivity|]. exact A.
    + eexists _, _, _; split; [reflexivity|]. apply Acknowledged_Acknowledge.
  - destruct (Finished pod) eqn:F; simpl.
    + eexists _, _, _; split; [reflexivity|]. exact F.
    + eexists _, _, _; split; [reflexivity|]. apply Finished_Finish.
Qed.

Lemma updateDrainStatus_fixed_point (env : Env) (pod : Pod) (st : State) :
  encodesState pod st = true -> updateDrainStatus env pod st = Some (pod, false, None).
Proof.
  unfold encodesState, updateDrainStatus.
  destruct st; intros H; try discriminate.
  - destruct (Finished pod), (Acknowledged pod); simpl in *; try discriminate. reflexivity.
  - rewrite H. reflexivity.
  - rewrite H. reflexivity.
Qed.

(** C9: for the targets finished, acknowledged and not-draining, a Pod
    whose annotations already say the target gets no [client.Update], is
    left as it is, and no error is returned; so a second application of
    the same target, on the Pod the first one left, is such a no-op. *)
Theorem updateDrainStatus_idempotent (env : Env) (pod : Pod) (st : State) :
  st <> DrainingState ->
  (encodesState pod st = true -> updateDrainStatus env pod st = Some (pod, false, None)) /\
  (exists p1 w e, updateDrainStatus env pod st = Some (p1, w, e) /\
                  updateDrainStatus env p1 st = Some (p1, false, None)).
Proof.
  intros Hst. split.
  - apply updateDrainStatus_fixed_point.
  - destruct (updateDrainStatus_encodes env pod st Hst) as (p1 & w & e & E & Enc).
    exists p1, w, e. split; [exact E|]. apply updateDrainStatus_fixed_point; exact Enc.
Qed.

Lemma updateDrainStatus_idempotent_witness :
  AcknowledgedState <> DrainingState /\
  exists p1 w e,
    updateDrainStatus (Runs.world (fun _ => ∅) (fun _ => None))
      (Runs.pod "zone1-101" true [startedAnnotation]) AcknowledgedState = Some (p1, w, e) /\
    updateDrainStatus (Runs.world (fun _ => ∅) (fun _ => None)) p1 AcknowledgedState
    = Some (p1, false, None).
Proof.
  assert (H : AcknowledgedState <> DrainingState) by discriminate.
  split; [exact H|].
  exact (proj2 (updateDrainStatus_idempotent (Runs.world (fun _ => ∅) (fun _ => None))
                  (Runs.pod "zone1-101" true [startedAnnotation]) AcknowledgedState H)).
Defined.

(* ------------------------------------------------------------------ *)
(** ** The shard health gate                                           *)
(* ------------------------------------------------------------------ *)

Lemma first_unavailable_some (l : list (string * TabletStatus)) :
  is_Some (first_unavailable l) <->
  exists name st, In (name, st) l /\ ts_available st <> ConditionTrue.
Proof.
  induction l as [|[name st] rest IH]; simpl.
  - split; [intros [? H]; discriminate | intros (? & ? & [] & _)].
  - destruct (ts_available st) eqn:A.
    + rewrite IH. split.
      * intros (n & s & Hin & Hs). exists n, s. auto.
      * intros (n & s & [E | Hin] & Hs).
        -- injection E as <- <-. congruence.
        -- exists n, s. auto.
    + split; [intros _; exists name, st; split; [left; reflexivity | congruence] | eauto].
    + split; [intros _; exists name, st; split; [left; reflexivity | congruence] | eauto].
Qed.

(** C10: the health gate looks only at [vts.Status.Tablets]: it reports
    unhealthy exactly when some entry is not Available. With an empty
    status map it reports healthy, and the pass goes on to the primary
    check whatever Pods, shard record and tablets it holds. *)
Theorem isShardHealthy_status_only (env : Env) (vts : VitessShard) :
  map_iter_ok env ->
  (is_Some (isShardHealthy env vts) <->
   exists name st, vts_status_tablets vts !! name = Some st /\ ts_available st <> ConditionTrue) /\
  (vts_status_tablets vts = ∅ ->
   isShardHealthy env vts = None /\
   forall shard tablets s, healthGate env vts shard tablets s = primaryGate env vts shard tablets s).
Proof.
  intros Hiter; unfold map_iter_ok in Hiter.
  assert (Hin : forall name st,
            In (name, st) (iter env (vts_status_tablets vts)) <->
            vts_status_tablets vts !! name = Some st).
  { intros name st. rewrite <- elem_of_map_to_list, <- list_elem_of_In.
    unfold iter. rewrite (Hiter _ (vts_status_tablets vts)). reflexivity. }
  split.
  - unfold isShardHealthy. rewrite first_unavailable_some.
    split; intros (n & s & H1 & H2); exists n, s; split; try exact H2; apply Hin; exact H1.
  - intros Hempty.
    assert (Hnone : isShardHealthy env vts = None).
    { unfold isShardHealthy, iter.
      assert (P : env_map_iter env _ (vts_status_tablets vts) = []).
      { apply Permutation_nil. symmetry. rewrite Hiter, Hempty, map_to_list_empty. reflexivity. }
      rewrite P. reflexivity. }
    split; [exact Hnone|].
    intros shard tablets s. unfold healthGate. rewrite Hnone. reflexivity.
Qed.

Lemma isShardHealthy_status_only_witness :
  map_iter_ok (Runs.world (fun _ => ∅) (fun _ => None)) /\
  isShardHealthy (Runs.world (fun _ => ∅) (fun _ => None)) Runs.shardVts = None.
Proof.
  assert (H : map_iter_ok (Runs.world (fun _ => ∅) (fun _ => None)))
    by (intros A m; reflexivity).
  split; [exact H|].
  exact (proj1 (proj2 (isShardHealthy_status_only _ Runs.shardVts H) eq_refl)).
Defined.

(* ------------------------------------------------------------------ *)
(** ** The candidate primary selector                                  *)
(* ------------------------------------------------------------------ *)

Lemma collect_candidates_sound (prim : string) (pods : gmap string Pod) (ext : bool)
    (l : list (string * Tablet)) (t : Tablet) :
  In t (collect_candidates prim pods ext l) ->
  exists k, In (k, t) l /\ eligible prim pods ext k t = true.
Proof.
  induction l as [|[k t'] rest IH]; simpl; [intros []|].
  destruct (eligible prim pods ext k t') eqn:E.
  - intros [<- | H]; [exists k; auto|].
    destruct (IH H) as (k' & ? & ?). exists k'; auto.
  - intros H. destruct (IH H) as (k' & ? & ?). exists k'; auto.
Qed.

Lemma read_results_origin (rs : list candidateInfo) (best : option Tablet) (h : N) (t : Tablet) :
  fst (read_results rs best h) = Some t ->
  best = Some t \/ exists r, In r rs /\ ci_tablet r = t.
Proof.
  revert best h. induction rs as [|r rest IH]; intros best h; simpl; [auto|].
  destruct (ci_err r).
  - intros H. destruct (IH _ _ H) as [-> | (r' & ? & ?)]; eauto.
  - destruct (IsZero h || negb (AtLeast h (ci_position r))).
    + intros H. destruct (IH _ _ H) as [E | (r' & ? & ?)].
      * right. exists r. injection E; auto.
      * eauto.
    + intros H. destruct (IH _ _ H) as [-> | (r' & ? & ?)]; eauto.
Qed.

Lemma candidatePrimary_from_candidates (env : Env) (prim : string) (tablets : gmap string Tablet)
    (pods : gmap string Pod) (ext : bool) (t : Tablet) :
  arrival_ok env ->
  candidatePrimary env prim tablets pods ext = Some t ->
  In t (collect_candidates prim pods ext (iter env tablets)).
Proof.
  intros Harr. unfold candidatePrimary. cbv zeta.
  destruct (collect_candidates prim pods ext (iter env tablets)) as [|first rest] eqn:C;
    [discriminate|].
  destruct (fst (read_results (env_arrival env (map (probe env) (first :: rest))) None 0))
    as [best|] eqn:R.
  - intros E. injection E as <-.
    destruct (read_results_origin _ _ _ _ R) as [E | (r & Hin & <-)]; [discriminate|].
    apply list_elem_of_In in Hin. rewrite (Harr _) in Hin. apply list_elem_of_In in Hin.
    apply in_map_iff in Hin. destruct Hin as (c & <- & Hc).
    unfold probe. destruct (env_ReplicationStatus env c); exact Hc.
  - intros E. injection E as <-. left. reflexivity.
Qed.

(** C6: a tablet returned by the selector is a tablet of the map, is not
    the current primary, has a Pod that exists and is ready, carries no
    started, acknowledged or finished marker, and has the right role: in
    the external-primary pool with type SPARE or PRIMARY for an external
    datastore, type REPLICA otherwise. *)
Theorem candidatePrimary_eligible (env : Env) (prim : string) (tablets : gmap string Tablet)
    (pods : gmap string Pod) (usingExternal : bool) (t : Tablet) :
  map_iter_ok env -> arrival_ok env ->
  candidatePrimary env prim tablets pods usingExternal = Some t ->
  exists k pod,
    tablets !! k = Some t /\ tablet_alias t <> prim /\
    pods !! k = Some pod /\ pod_ready pod = true /\
    Started pod = false /\ Acknowledged pod = false /\ Finished pod = false /\
    (if usingExternal
     then pod_labels pod !! TabletTypeLabel = Some ExternalMasterTabletPoolName /\
          (tablet_type t = SPARE \/ tablet_type t = PRIMARY)
     else tablet_type t = REPLICA).
Proof.
  intros Hiter Harr Hsel.
  pose proof (candidatePrimary_from_candidates _ _ _ _ _ _ Harr Hsel) as Hc.
  destruct (collect_candidates_sound _ _ _ _ _ Hc) as (k & Hk & Hel).
  assert (Htab : tablets !! k = Some t).
  { apply elem_of_map_to_list. rewrite <- (Hiter _ tablets). apply list_elem_of_In. exact Hk. }
  unfold eligible in Hel.
  destruct (String.eqb (tablet_alias t) prim) eqn:Ea; [discriminate|].
  apply String.eqb_neq in Ea.
  destruct (pods !! k) as [pod|] eqn:Ep; [|discriminate].
  exists k, pod.
  apply andb_true_iff in Hel as [Hel Hdrain]. apply andb_true_iff in Hel as [Hrole Hready].
  destruct (Started pod), (Acknowledged pod), (Finished pod); try discriminate.
  repeat split; auto.
  - destruct usingExternal.
    + apply andb_true_iff in Hrole as [Hl Ht].
      apply bool_decide_eq_true in Hl. split; [exact Hl|].
      apply orb_true_iff in Ht as [Ht | Ht]; apply bool_decide_eq_true in Ht; auto.
    + apply bool_decide_eq_true in Hrole. exact Hrole.
Qed.

Lemma candidatePrimary_eligible_witness :
  map_iter_ok (Runs.world (fun _ => ∅) (fun _ => Some 7%N)) /\
  arrival_ok (Runs.world (fun _ => ∅) (fun _ => Some 7%N)) /\
  candidatePrimary (Runs.world (fun _ => ∅) (fun _ => Some 7%N)) "zone1-100"
    (Runs.tabletsOf [("zone1-100", PRIMARY); ("zone1-101", REPLICA)])
    (podIndex [Runs.pod "zone1-100" true []; Runs.pod "zone1-101" true []]) false
  = Some (mkTablet "zone1-101" REPLICA) /\
  exists k pod,
    Runs.tabletsOf [("zone1-100", PRIMARY); ("zone1-101", REPLICA)] !! k
      = Some (mkTablet "zone1-101" REPLICA) /\
    podIndex [Runs.pod "zone1-100" true []; Runs.pod "zone1-101" true []] !! k = Some pod /\
    pod_ready pod = true.
Proof.
  assert (H1 : map_iter_ok (Runs.world (fun _ => ∅) (fun _ => Some 7%N)))
    by (intros A m; reflexivity).
  assert (H2 : arrival_ok (Runs.world (fun _ => ∅) (fun _ => Some 7%N)))
    by (intros l; reflexivity).
  assert (H3 : candidatePrimary (Runs.world (fun _ => ∅) (fun _ => Some 7%N)) "zone1-100"
    (Runs.tabletsOf [("zone1-100", PRIMARY); ("zone1-101", REPLICA)])
    (podIndex [Runs.pod "zone1-100" true []; Runs.pod "zone1-101" true []]) false
    = Some (mkTablet "zone1-101" REPLICA)) by (vm_compute; reflexivity).
  split; [exact H1|]. split; [exact H2|]. split; [exact H3|].
  destruct (candidatePrimary_eligible _ _ _ _ _ _ H1 H2 H3)
    as (k & pod & Ht & _ & Hp & Hr & _).
  exists k, pod. repeat split; assumption.
Defined.

Lemma maxPos_cons (r : candidateInfo) (rs : list candidateInfo) :
  maxPos (r :: rs) = if succeeded r then N.max (ci_position r) (maxPos rs) else maxPos rs.
Proof. reflexivity. Qed.

(** Once a non-zero position is held, the loop ends on the first
    arrival at the furthest position, if that beats the one held. *)
Lemma read_results_positive (rs : list candidateInfo) (best : option Tablet) (h : N) :
  (0 < h)%N ->
  fst (read_results rs best h)
  = if (maxPos rs <=? h)%N then best else option_map ci_tablet (first_at (maxPos rs) rs).
Proof.
  revert best h. induction rs as [|r rs IH]; intros best h Hh; [destruct h; reflexivity|].
  rewrite maxPos_cons. unfold first_at; simpl find.
  unfold succeeded; simpl read_results.
  destruct (ci_err r) as [e|]; simpl.
  - apply IH; exact Hh.
  - set (p := ci_position r). set (m := maxPos rs).
    assert (Hz : IsZero h = false) by (apply N.eqb_neq; lia).
    unfold AtLeast. rewrite Hz. simpl.
    destruct (p <=? h)%N eqn:Hp; simpl.
    + apply N.leb_le in Hp. rewrite (IH best h Hh). fold m.
      destruct (m <=? h)%N eqn:Hm.
      * apply N.leb_le in Hm. replace (N.max p m <=? h)%N with true; [reflexivity|].
        symmetry. apply N.leb_le. lia.
      * apply N.leb_gt in Hm. replace (N.max p m <=? h)%N with false
          by (symmetry; apply N.leb_gt; lia).
        replace (N.max p m) with m by lia.
        replace (p =? m)%N with false by (symmetry; apply N.eqb_neq; lia). reflexivity.
    + apply N.leb_gt in Hp. rewrite (IH (Some (ci_tablet r)) p ltac:(lia)). fold m.
      replace (N.max p m <=? h)%N with false by (symmetry; apply N.leb_gt; lia).
      destruct (m <=? p)%N eqn:Hm.
      * apply N.leb_le in Hm. replace (N.max p m) with p by lia.
        rewrite N.eqb_refl. reflexivity.
      * apply N.leb_gt in Hm. replace (N.max p m) with m by lia.
        replace (p =? m)%N with false by (symmetry; apply N.eqb_neq; lia). reflexivity.
Qed.

(** From the initial state (no best, zero position), the loop ends on
    the first arrival at the furthest position, when that is non-zero. *)
Lemma read_results_initial (rs : list candidateInfo) (best : option Tablet) :
  (0 < maxPos rs)%N ->
  fst (read_results rs best 0) = option_map ci_tablet (first_at (maxPos rs) rs).
Proof.
  revert best. induction rs as [|r rs IH]; intros best Hpos; [simpl in Hpos; lia|].
  rewrite maxPos_cons in *. unfold first_at in *; simpl find.
  unfold succeeded in *; simpl read_results.
  destruct (ci_err r) as [e|]; simpl.
  - apply IH; exact Hpos.
  - set (p := ci_position r) in *. set (m := maxPos rs) in *.
    destruct (N.eq_dec p 0%N) as [Hp0 | Hp0].
    + rewrite Hp0 in *. replace (N.max 0%N m) with m in * by lia.
      rewrite (IH (Some (ci_tablet r)) Hpos). fold m.
      replace (0 =? m)%N with false by (symmetry; apply N.eqb_neq; lia). reflexivity.
    + rewrite (read_results_positive rs (Some (ci_tablet r)) p ltac:(lia)). fold m.
      destruct (m <=? p)%N eqn:Hm.
      * apply N.leb_le in Hm. replace (N.max p m) with p by lia.
        rewrite N.eqb_refl. reflexivity.
      * apply N.leb_gt in Hm. replace (N.max p m) with m by lia.
        replace (p =? m)%N with false by (symmetry; apply N.eqb_neq; lia). reflexivity.
Qed.

Lemma read_results_no_success (rs : list candidateInfo) (best : option Tablet) (h : N) :
  Forall (fun r => succeeded r = false) rs -> read_results rs best h = (best, h).
Proof.
  revert best h. induction rs as [|r rs IH]; intros best h Hall; [reflexivity|].
  inversion Hall as [|? ? Hr Hrs]; subst.
  unfold succeeded in Hr. simpl. destruct (ci_err r); [apply IH; exact Hrs | discriminate].
Qed.

(** When every answer is the zero position, the last one to arrive wins. *)
Lemma read_results_all_zero (rs : list candidateInfo) (best : option Tablet) :
  maxPos rs = 0%N ->
  fst (read_results rs best 0)
  = match last_success rs with Some t => Some t | None => best end.
Proof.
  revert best. induction rs as [|r rs IH]; intros best Hz; [reflexivity|].
  rewrite maxPos_cons in Hz. unfold last_success; simpl fold_right; fold (last_success rs).
  unfold succeeded in *; simpl read_results.
  destruct (ci_err r) as [e|]; simpl.
  - rewrite (IH best Hz). destruct (last_success rs); reflexivity.
  - assert (Hp : ci_position r = 0%N) by lia.
    assert (Hm : maxPos rs = 0%N) by lia.
    rewrite Hp. simpl. rewrite (IH _ Hm). destruct (last_success rs); reflexivity.
Qed.

(** C7 (amended): let the eligible candidates be [first :: rest] and [rs]
    their probe results in arrival order. If some probe succeeded with a
    non-zero position, the selector returns the first arrival among those
    at the furthest position. If no probe succeeded, it returns [first],
    the first eligible candidate. If probes succeeded but all at the zero
    position, it returns the last of them to arrive. *)
Theorem candidatePrimary_race (env : Env) (prim : string) (tablets : gmap string Tablet)
    (pods : gmap string Pod) (usingExternal : bool) (first : Tablet) (rest : list Tablet) :
  collect_candidates prim pods usingExternal (iter env tablets) = first :: rest ->
  let rs := env_arrival env (map (probe env) (first :: rest)) in
  ((0 < maxPos rs)%N ->
   candidatePrimary env prim tablets pods usingExternal
   = option_map ci_tablet (first_at (maxPos rs) rs)) /\
  (Forall (fun r => succeeded r = false) rs ->
   candidatePrimary env prim tablets pods usingExternal = Some first) /\
  (maxPos rs = 0%N -> last_success rs <> None ->
   candidatePrimary env prim tablets pods usingExternal = last_success rs).
Proof.
  intros C rs. unfold candidatePrimary. rewrite C. cbv zeta. fold rs.
  split; [|split].
  - intros Hpos. rewrite (read_results_initial rs None Hpos).
    unfold first_at.
    destruct (find _ rs) as [r|] eqn:F; [reflexivity|].
    exfalso. revert Hpos F. clear. induction rs as [|r rs IH]; intros Hpos F;
      [simpl in Hpos; lia|].
    rewrite maxPos_cons in Hpos. simpl in F. unfold succeeded in Hpos, F.
    destruct (ci_err r); simpl in F.
    + exact (IH Hpos F).
    + revert F. destruct (maxPos rs <=? ci_position r)%N eqn:Hm.
      * apply N.leb_le in Hm. replace (N.max (ci_position r) (maxPos rs)) with (ci_position r) by lia.
        rewrite N.eqb_refl. discriminate.
      * apply N.leb_gt in Hm. replace (N.max (ci_position r) (maxPos rs)) with (maxPos rs) by lia.
        replace (ci_position r =? maxPos rs)%N with false by (symmetry; apply N.eqb_neq; lia).
        apply IH. lia.
  - intros Hnone. rewrite (read_results_no_success rs None 0 Hnone). reflexivity.
  - intros Hz Hsome. rewrite (read_results_all_zero rs None Hz).
    destruct (last_success rs); [reflexivity | congruence].
Qed.

(** C7 (counterexample): two eligible replicas both answer with the zero
    position, "zone1-103" first; the selector returns "zone1-101", the
    later of the two, not the earliest-seen one. *)
Lemma candidatePrimary_zero_position_tie :
  map (fun r => (tablet_alias (ci_tablet r), ci_position r, ci_err r))
    (env_arrival (Runs.world (fun _ => ∅) (fun _ => Some 0%N))
       (map (probe (Runs.world (fun _ => ∅) (fun _ => Some 0%N)))
          (collect_candidates "zone1-100"
             (podIndex [Runs.pod "zone1-100" true []; Runs.pod "zone1-101" true [];
                        Runs.pod "zone1-103" true []]) false
             (iter (Runs.world (fun _ => ∅) (fun _ => Some 0%N))
                (Runs.tabletsOf [("zone1-100", PRIMARY); ("zone1-101", REPLICA);
                                 ("zone1-103", REPLICA)])))))
  = [("zone1-103", 0%N, None); ("zone1-101", 0%N, None)] /\
  candidatePrimary (Runs.world (fun _ => ∅) (fun _ => Some 0%N)) "zone1-100"
    (Runs.tabletsOf [("zone1-100", PRIMARY); ("zone1-101", REPLICA); ("zone1-103", REPLICA)])
    (podIndex [Runs.pod "zone1-100" true []; Runs.pod "zone1-101" true [];
               Runs.pod "zone1-103" true []]) false
  = Some (mkTablet "zone1-101" REPLICA).
Proof. split; vm_compute; reflexivity. Qed.


Lemma candidatePrimary_race_witness :
  collect_candidates "zone1-100"
    (podIndex [Runs.pod "zone1-100" true []; Runs.pod "zone1-101" true [];
               Runs.pod "zone1-102" true []; Runs.pod "zone1-103" true []]) false
    (iter (Runs.world (fun _ => ∅) race_positions)
       (Runs.tabletsOf [("zone1-100", PRIMARY); ("zone1-101", REPLICA);
                        ("zone1-102", REPLICA); ("zone1-103", REPLICA)]))
  = [mkTablet "zone1-103" REPLICA; mkTablet "zone1-101" REPLICA; mkTablet "zone1-102" REPLICA] /\
  candidatePrimary (Runs.world (fun _ => ∅) race_positions) "zone1-100"
    (Runs.tabletsOf [("zone1-100", PRIMARY); ("zone1-101", REPLICA);
                     ("zone1-102", REPLICA); ("zone1-103", REPLICA)])
    (podIndex [Runs.pod "zone1-100" true []; Runs.pod "zone1-101" true [];
               Runs.pod "zone1-102" true []; Runs.pod "zone1-103" true []]) false
  = Some (mkTablet "zone1-101" REPLICA).
Proof.
  assert (C : collect_candidates "zone1-100"
    (podIndex [Runs.pod "zone1-100" true []; Runs.pod "zone1-101" true [];
               Runs.pod "zone1-102" true []; Runs.pod "zone1-103" true []]) false
    (iter (Runs.world (fun _ => ∅) race_positions)
       (Runs.tabletsOf [("zone1-100", PRIMARY); ("zone1-101", REPLICA);
                        ("zone1-102", REPLICA); ("zone1-103", REPLICA)]))
    = [mkTablet "zone1-103" REPLICA; mkTablet "zone1-101" REPLICA; mkTablet "zone1-102" REPLICA])
    by (vm_compute; reflexivity).
  split; [exact C|].
  rewrite (proj1 (candidatePrimary_race _ _ _ _ _ _ _ C)) by (vm_compute; reflexivity).
  vm_compute. reflexivity.
Defined.

(** The spec's run with no answer in time: candidates [A; B] =
    zone1-103, zone1-101 both fail; A, the first eligible one, is chosen. *)
Example candidatePrimary_no_answer :
  candidatePrimary (Runs.world (fun _ => ∅) (fun _ => None)) "zone1-100"
    (Runs.tabletsOf [("zone1-100", PRIMARY); ("zone1-101", REPLICA); ("zone1-103", REPLICA)])
    (podIndex [Runs.pod "zone1-100" true []; Runs.pod "zone1-101" true [];
               Runs.pod "zone1-103" true []]) false
  = Some (mkTablet "zone1-103" REPLICA).
Proof. vm_compute. reflexivity. Qed.

(* ------------------------------------------------------------------ *)
(** ** The primary is never marked finished                            *)
(* ------------------------------------------------------------------ *)

Lemma updateDrainStatus_clears (env : Env) (pod p' : Pod) (w : bool) (e : option string) :
  updateDrainStatus env pod NotDrainingState = Some (p', w, e) ->
  p' = clearMarkers pod /\ Finished p' = false /\ Acknowledged p' = false.
Proof.
  unfold updateDrainStatus, clearMarkers.
  destruct (Finished pod) eqn:F; simpl.
  - destruct (Acknowledged (Unfinish pod)) eqn:A; simpl; intros E; injection E as <- _ _.
    + rewrite Finished_Unacknowledge, Finished_Unfinish, Acknowledged_Unacknowledge. auto.
    + rewrite Finished_Unfinish, A. split; [|auto].
      unfold Unacknowledge, set_annotations. simpl.
      rewrite delete_id; [destruct pod; reflexivity|].
      unfold Acknowledged, has in A. simpl in A.
      destruct (_ !! acknowledgedAnnotation); [discriminate | reflexivity].
  - assert (Hf : delete finishedAnnotation (pod_annotations pod) = pod_annotations pod).
    { apply delete_id. unfold Finished, has in F.
      destruct (pod_annotations pod !! finishedAnnotation); [discriminate | reflexivity]. }
    assert (Hu : Unfinish pod = pod).
    { unfold Unfinish, set_annotations. rewrite Hf. destruct pod; reflexivity. }
    rewrite Hu.
    destruct (Acknowledged pod) eqn:A; simpl; intros E; injection E as <- _ _.
    + rewrite Finished_Unacknowledge, F, Acknowledged_Unacknowledge. auto.
    + rewrite F, A. split; [|auto].
      unfold Unacknowledge, set_annotations.
      rewrite delete_id; [destruct pod; reflexivity|].
      unfold Acknowledged, has in A.
      destruct (pod_annotations pod !! acknowledgedAnnotation); [discriminate | reflexivity].
Qed.

Lemma updateDrainStatus_no_finish (env : Env) (pod p' : Pod) (st : State) (w : bool)
    (e : option string) :
  st <> FinishedState -> updateDrainStatus env pod st = Some (p', w, e) ->
  Finished p' = true -> Finished pod = true.
Proof.
  intros Hst Hu Hf. destruct st.
  - apply updateDrainStatus_clears in Hu. destruct Hu as (_ & F & _). congruence.
  - discriminate.
  - unfold updateDrainStatus in Hu.
    destruct (Acknowledged pod); simpl in Hu; injection Hu as <- _ _;
      [exact Hf | rewrite Finished_Acknowledge in Hf; exact Hf].
  - congruence.
Qed.

Section PrimaryInvariant.

Variables (env : Env) (idx : gmap string Pod) (prim : string).

Lemma primary_inv_emit (a : Action) (s : PassState) :
  (forall p', a <> UpdatePod prim p') -> primary_inv idx prim s -> primary_inv idx prim (emit a s).
Proof.
  intros Ha [Hp Hl]. split; [exact Hp|]. simpl. apply Forall_app. split; [exact Hl|].
  constructor; [|constructor]. intros p' E. exfalso. exact (Ha p' E).
Qed.

Lemma primary_inv_event (ty : EventType) (r : string) (s : PassState) :
  primary_inv idx prim s -> primary_inv idx prim (emit (Event ty r) s).
Proof. apply primary_inv_emit. discriminate. Qed.

Lemma primary_inv_builder (f : Builder -> Builder) (s : PassState) :
  primary_inv idx prim s -> primary_inv idx prim (with_builder f s).
Proof. intros H. exact H. Qed.

Lemma primary_inv_record (k : string) (p' : Pod) (w : bool) (e : option string) (s : PassState) :
  (k = prim -> Finished p' = true -> finished_before idx prim) ->
  primary_inv idx prim s -> primary_inv idx prim (record_update k (p', w, e) s).
Proof.
  intros Hk [Hp Hl].
  assert (Hs : primary_inv idx prim (store k p' s)).
  { split; [|exact Hl]. simpl. intros p.
    destruct (decide (k = prim)) as [<- | Hne].
    - rewrite lookup_insert_eq. intros E; injection E as <-. apply Hk; reflexivity.
    - rewrite lookup_insert_ne by exact Hne. apply Hp. }
  unfold record_update.
  assert (Hw : primary_inv idx prim (if w then emit (UpdatePod k p') (store k p' s) else store k p' s)).
  { destruct w; [|exact Hs].
    destruct Hs as [Hp' Hl']. split; [exact Hp'|]. simpl. apply Forall_app. split; [exact Hl'|].
    constructor; [|constructor]. intros q E. injection E as -> ->. apply Hk; reflexivity. }
  destruct e; [|exact Hw].
  apply primary_inv_builder, primary_inv_event, Hw.
Qed.

Lemma primary_inv_load (l : list (string * Pod)) (d : gmap string State) (a : bool) (s : PassState) :
  primary_inv idx prim s -> primary_inv idx prim (flow_state (loadDrainState env l d a s)).
Proof.
  revert d a s. induction l as [|[k pod] rest IH]; intros d a s H; simpl; [exact H|].
  destruct (Started pod).
  - destruct (env_GetState env pod) as [st err]. apply IH.
    destruct err; [apply primary_inv_event|]; exact H.
  - set (s1 := if Acknowledged pod || Finished pod then emit (Event Warning "AbortingDrain") s else s).
    assert (H1 : primary_inv idx prim s1).
    { unfold s1. destruct (Acknowledged pod || Finished pod); [apply primary_inv_event|]; exact H. }
    destruct (updateDrainStatus env pod NotDrainingState) as [[[p' w] e]|] eqn:U; [|exact H1].
    apply IH, primary_inv_record; [|exact H1].
    intros _ Hf. apply updateDrainStatus_clears in U. destruct U as (_ & F & _). congruence.
Qed.

Lemma primary_inv_transitions (l : list (string * State)) (a : bool) (s : PassState) :
  primary_inv idx prim s -> primary_inv idx prim (flow_state (applyTransitions env prim l a s)).
Proof.
  revert a s. induction l as [|[k st] rest IH]; intros a s H; simpl; [exact H|].
  destruct (bool_decide (st = FinishedState) && String.eqb k prim) eqn:Skip; [apply IH; exact H|].
  destruct (ps_pods s !! k) as [pod|] eqn:P; [|exact H].
  destruct (updateDrainStatus env pod st) as [[[p' w] e]|] eqn:U; [|exact H].
  apply IH, primary_inv_record; [|exact H].
  intros -> Hf. apply (proj1 H pod P).
  apply (updateDrainStatus_no_finish env pod p' st w e); [|exact U|exact Hf].
  intros ->. rewrite String.eqb_refl in Skip. discriminate.
Qed.

Lemma primary_inv_fast_shutdown (l : list (string * Pod)) (tablets : gmap string Tablet)
    (desired : string) (s : PassState) :
  primary_inv idx prim s -> primary_inv idx prim (snd (disableFastShutdown env l tablets desired s)).
Proof.
  revert s. induction l as [|[k pod] rest IH]; intros s H; simpl; [exact H|].
  destruct (tablets !! k) as [t|]; [|apply IH; exact H].
  destruct (safeMysqldUpgrade (mysqldImage pod) desired) as [[|] [e|]]; simpl; try exact H;
    [| apply IH; exact H].
  assert (H1 : primary_inv idx prim (emit (ExecuteFetchAsDba k) s))
    by (apply primary_inv_emit; [discriminate | exact H]).
  destruct (env_ExecuteFetchAsDba env t); simpl; [exact H1|].
  apply IH, primary_inv_event, H1.
Qed.

Lemma primary_inv_reparent (vts : VitessShard) (tablets : gmap string Tablet)
    (drains transitions : gmap string State) (acked : bool) (s : PassState) :
  primary_inv idx prim s ->
  Forall (no_new_finish idx prim) (snd (reparentPhase env vts prim tablets drains transitions acked s)).
Proof.
  intros H. unfold reparentPhase.
  destruct (acked && negb (isFinished drains prim)).
  { apply (primary_inv_event Normal "NotReparentingPrimary") in H. exact (proj2 H). }
  destruct (negb (isFinished drains prim) && negb (isFinished transitions prim)).
  { apply (primary_inv_event Normal "NotReparentingPrimary") in H. exact (proj2 H). }
  destruct (candidatePrimary env prim tablets (ps_pods s) (vts_using_external vts)) as [np|].
  2:{ apply (primary_inv_event Warning "DrainBlocked") in H. exact (proj2 H). }
  assert (H1 : primary_inv idx prim
    (snd (if vts_using_external vts then handleExternalReparent env (tablet_alias np) prim s
          else (env_PlannedReparentShard env (tablet_alias np),
                emit (PlannedReparentShard (tablet_alias np)) s)))).
  { destruct (vts_using_external vts); simpl.
    - unfold handleExternalReparent.
      assert (H2 : primary_inv idx prim (emit (TabletExternallyReparented (tablet_alias np)) s))
        by (apply primary_inv_emit; [discriminate | exact H]).
      destruct (env_TabletExternallyReparented env (tablet_alias np)); simpl; [exact H2|].
      apply primary_inv_emit; [discriminate | exact H2].
    - apply primary_inv_emit; [discriminate | exact H]. }
  destruct (if vts_using_external vts then _ else _) as [err s1]. simpl in H1.
  assert (H3 : primary_inv idx prim
    (match err with
     | Some _ => emit (Event Warning "PlannedReparentFailed") s1
     | None => emit (Event Normal "PlannedReparent") s1 end))
    by (destruct err; apply primary_inv_event; exact H1).
  apply (primary_inv_emit (PlannedReparentCount (bool_decide (is_Some err)))) in H3;
    [exact (proj2 H3) | discriminate].
Qed.

Lemma primary_inv_drainPhases (vts : VitessShard) (tablets : gmap string Tablet) (s : PassState) :
  primary_inv idx prim s -> Forall (no_new_finish idx prim) (snd (drainPhases env vts prim tablets s)).
Proof.
  intros H. unfold drainPhases.
  pose proof (primary_inv_load (iter env (ps_pods s)) ∅ false s H) as H1.
  destruct (loadDrainState env (iter env (ps_pods s)) ∅ false s) as [[drains aborting] s1 | s1];
    simpl in H1; [|exact (proj2 H1)].
  destruct (bool_decide (drains = ∅)); [exact (proj2 H1)|].
  destruct aborting.
  { apply (primary_inv_event Warning "AbortingDrain") in H1. exact (proj2 H1). }
  pose proof (primary_inv_transitions (iter env (env_StateTransitions env drains)) false s1 H1) as H2.
  destruct (applyTransitions env prim (iter env (env_StateTransitions env drains)) false s1)
    as [acked s2 | s2]; simpl in H2; [|exact (proj2 H2)].
  pose proof (primary_inv_fast_shutdown (iter env (ps_pods s2)) tablets (vts_mysqld_image vts) s2 H2)
    as H3.
  destruct (disableFastShutdown env (iter env (ps_pods s2)) tablets (vts_mysqld_image vts) s2)
    as [[e|] s3]; simpl in H3.
  - apply (primary_inv_event Warning "MysqldSafeUpgradeFailed") in H3.
    apply (primary_inv_builder (builder_Error e)) in H3. exact (proj2 H3).
  - apply primary_inv_reparent. exact H3.
Qed.

End PrimaryInvariant.

(** C1: whatever the state machine proposes (including "finished" for
    the primary), no [client.Update] of the pass puts the finished marker
    on the primary's Pod: an update of that Pod that carries the marker
    is one of a Pod that already carried it when the pass began. *)
Theorem reconcileDrain_primary_never_finished (env : Env) (vts : VitessShard)
    (podListR : GoResult (list Pod)) (shard : Shard) (tabletsR : GoResult (gmap string Tablet)) :
  Forall (fun a => forall prim p',
            shard_primary shard = Some prim -> a = UpdatePod prim p' -> Finished p' = true ->
            exists pods p0, podListR = GoOk pods /\ podIndex pods !! prim = Some p0 /\
                            Finished p0 = true)
    (snd (reconcileDrain env vts podListR (GoOk shard) tabletsR)).
Proof.
  unfold reconcileDrain.
  destruct podListR as [pods|e]; [|repeat constructor; discriminate].
  destruct tabletsR as [tablets|e]; [|repeat constructor; discriminate].
  unfold healthGate.
  destruct (isShardHealthy env vts); [repeat constructor; discriminate|].
  unfold primaryGate.
  destruct (shard_primary shard) as [prim|] eqn:Hp; [|repeat constructor; discriminate].
  assert (H0 : primary_inv (podIndex pods) prim (mkPassState (podIndex pods) [] emptyBuilder)).
  { split; [|constructor]. simpl. intros p P F. exists p. auto. }
  eapply Forall_impl; [exact (primary_inv_drainPhases env (podIndex pods) prim vts tablets _ H0)|].
  intros a Ha prim' p' E -> F. injection E as <-.
  destruct (Ha p' eq_refl F) as (p0 & P0 & F0). exists pods, p0. auto.
Qed.

(** The run of the spec's scenario: the state machine proposes
    "finished" for the acknowledged primary zone1-100; the pass writes no
    marker and reparents to the ready replica zone1-101 instead. *)
Example reconcileDrain_primary_finish_skipped :
  reconcileDrain (Runs.world (fun _ => {["zone1-100" := FinishedState]}) (fun _ => Some 5%N))
    Runs.shardVts
    (GoOk [Runs.pod "zone1-100" true [startedAnnotation; acknowledgedAnnotation];
           Runs.pod "zone1-101" true []])
    (GoOk (mkShard (Some "zone1-100")))
    (GoOk (Runs.tabletsOf [("zone1-100", PRIMARY); ("zone1-101", REPLICA)]))
  = (Returned None None,
     [PlannedReparentShard "zone1-101"; Event Normal "PlannedReparent"; PlannedReparentCount false]).
Proof. vm_compute. reflexivity. Qed.

(* ------------------------------------------------------------------ *)
(** ** A pass that finds an aborted drain                              *)
(* ------------------------------------------------------------------ *)

Lemma record_update_log (P : Action -> Prop) (k : string) (p' : Pod) (w : bool)
    (e : option string) (s : PassState) :
  Forall P (ps_log s) -> (w = true -> P (UpdatePod k p')) -> P (Event Warning "UpdateFailed") ->
  Forall P (ps_log (record_update k (p', w, e) s)).
Proof.
  intros Hl Hw He. unfold record_update.
  assert (H1 : Forall P (ps_log (if w then emit (UpdatePod k p') (store k p' s) else store k p' s))).
  { destruct w; simpl; [|exact Hl]. apply Forall_app. split; [exact Hl|]. auto. }
  destruct e; simpl; [|exact H1].
  apply Forall_app. split; [exact H1|]. auto.
Qed.

Lemma emit_log (P : Action -> Prop) (a : Action) (s : PassState) :
  Forall P (ps_log s) -> P a -> Forall P (ps_log (emit a s)).
Proof. intros Hl Ha. simpl. apply Forall_app. auto. Qed.

Section AbortedDrain.

Variables (env : Env) (idx : gmap string Pod).

Lemma load_freeze_log (l : list (string * Pod)) (d : gmap string State) (a : bool) (s : PassState) :
  (forall k p, In (k, p) l -> idx !! k = Some p) ->
  Forall (freeze_action idx) (ps_log s) ->
  Forall (freeze_action idx) (ps_log (flow_state (loadDrainState env l d a s))).
Proof.
  revert d a s. induction l as [|[k pod] rest IH]; intros d a s Hl H; simpl; [exact H|].
  assert (Hrest : forall k' p', In (k', p') rest -> idx !! k' = Some p') by (intros; apply Hl; right; auto).
  destruct (Started pod) eqn:St.
  - destruct (env_GetState env pod) as [st err]. apply IH; [exact Hrest|].
    destruct err; [apply emit_log; [exact H | exact I] | exact H].
  - set (s1 := if Acknowledged pod || Finished pod then emit (Event Warning "AbortingDrain") s else s).
    assert (H1 : Forall (freeze_action idx) (ps_log s1)).
    { unfold s1. destruct (Acknowledged pod || Finished pod); [apply emit_log; [exact H | exact I]|exact H]. }
    destruct (updateDrainStatus env pod NotDrainingState) as [[[p' w] e]|] eqn:U; [|exact H1].
    apply IH; [exact Hrest|].
    apply record_update_log; [exact H1 | | exact I].
    intros _. apply updateDrainStatus_clears in U. destruct U as (-> & _ & _).
    exists pod. split; [apply Hl; left; reflexivity | auto].
Qed.

Lemma updateDrainStatus_clears_marked (pod : Pod) :
  (Acknowledged pod || Finished pod) = true ->
  exists e, updateDrainStatus env pod NotDrainingState = Some (clearMarkers pod, true, e).
Proof.
  intros M.
  assert (Hw : exists p' e, updateDrainStatus env pod NotDrainingState = Some (p', true, e)).
  { unfold updateDrainStatus. destruct (Finished pod) eqn:F; simpl.
    - destruct (Acknowledged (Unfinish pod)); simpl; eauto.
    - rewrite orb_false_r in M. rewrite M. simpl. eauto. }
  destruct Hw as (p' & e & U). exists e. rewrite U.
  destruct (updateDrainStatus_clears _ _ _ _ _ U) as (-> & _ & _). reflexivity.
Qed.

Lemma record_update_grows (k : string) (r : Pod * bool * option string) (s : PassState) :
  exists new, ps_log (record_update k r s) = (ps_log s ++ new)%list.
Proof.
  destruct r as [[p' w] e]. unfold record_update.
  destruct w, e; simpl; eauto; rewrite <- ?app_assoc; eauto.
  exists []. rewrite app_nil_r. reflexivity.
Qed.

Lemma load_log_grows (l : list (string * Pod)) (d : gmap string State) (a : bool) (s : PassState)
    (x : Action) :
  In x (ps_log s) -> In x (ps_log (flow_state (loadDrainState env l d a s))).
Proof.
  revert d a s. induction l as [|[k pod] rest IH]; intros d a s H; simpl; [exact H|].
  destruct (Started pod).
  - destruct (env_GetState env pod) as [st err]. apply IH.
    destruct err; [simpl; apply in_or_app; left|]; exact H.
  - assert (H1 : In x (ps_log (if Acknowledged pod || Finished pod
                               then emit (Event Warning "AbortingDrain") s else s)))
      by (destruct (Acknowledged pod || Finished pod); [simpl; apply in_or_app; left|]; exact H).
    destruct (updateDrainStatus env pod NotDrainingState) as [r|]; [|exact H1].
    apply IH. destruct (record_update_grows k r (if Acknowledged pod || Finished pod
                               then emit (Event Warning "AbortingDrain") s else s)) as [new ->].
    apply in_or_app. left. exact H1.
Qed.

Lemma load_clears (l : list (string * Pod)) (d : gmap string State) (a : bool) (s : PassState)
    (k0 : string) (p0 : Pod) :
  In (k0, p0) l -> Started p0 = false -> (Acknowledged p0 || Finished p0) = true ->
  In (UpdatePod k0 (clearMarkers p0)) (ps_log (flow_state (loadDrainState env l d a s))).
Proof.
  intros Hin St0 M0. revert d a s.
  induction l as [|[k pod] rest IH]; intros d a s; simpl; [destruct Hin|].
  destruct Hin as [E | Hin].
  - injection E as -> ->. rewrite St0.
    destruct (updateDrainStatus_clears_marked p0 M0) as [e U]. rewrite U.
    apply load_log_grows. unfold record_update.
    destruct e; simpl; rewrite ?in_app_iff; simpl; intuition.
  - destruct (Started pod); [destruct (env_GetState env pod); apply IH; exact Hin|].
    destruct (updateDrainStatus env pod NotDrainingState) as [r|] eqn:U; [apply IH; exact Hin|].
    exfalso. unfold updateDrainStatus in U.
    destruct (Finished pod); simpl in U;
      [destruct (Acknowledged (Unfinish pod)) | destruct (Acknowledged pod)]; discriminate.
Qed.

Lemma load_detects_abort (l : list (string * Pod)) (d d' : gmap string State) (a a' : bool)
    (s s' : PassState) (k0 : string) (p0 : Pod) :
  In (k0, p0) l -> Started p0 = false -> (Acknowledged p0 || Finished p0) = true ->
  loadDrainState env l d a s = Go (d', a') s' -> a' = true.
Proof.
  intros Hin St0 M0. revert d a s.
  cut (forall d a s, (a = true \/ In (k0, p0) l) -> loadDrainState env l d a s = Go (d', a') s' -> a' = true).
  { intros G d a s. apply G. right. exact Hin. }
  clear Hin. induction l as [|[k pod] rest IH]; intros d a s Ha; simpl.
  - destruct Ha as [-> | []]. intros E; injection E as _ <- _. reflexivity.
  - destruct (Started pod) eqn:St.
    + destruct (env_GetState env pod) as [st err]. apply IH.
      destruct Ha as [-> | [E | Hr]]; auto. injection E as -> ->. congruence.
    + destruct (updateDrainStatus env pod NotDrainingState) as [[[p' w] e]|]; [|discriminate].
      apply IH. destruct Ha as [-> | [E | Hr]]; auto.
      injection E as -> ->. left. rewrite M0. apply orb_true_r.
Qed.

End AbortedDrain.

(** C2 (counterexample): zone1-101 is acknowledged but has no drain
    request while zone1-100 is draining. The pass still updates
    zone1-101 to clear its acknowledged marker, so it makes one
    marker update. *)
Lemma reconcileDrain_abort_still_clears :
  reconcileDrain (Runs.world (fun _ => {["zone1-100" := FinishedState]}) (fun _ => Some 5%N))
    Runs.shardVts
    (GoOk [Runs.pod "zone1-100" true [startedAnnotation];
           Runs.pod "zone1-101" true [acknowledgedAnnotation]])
    (GoOk (mkShard (Some "zone1-100")))
    (GoOk (Runs.tabletsOf [("zone1-100", PRIMARY); ("zone1-101", REPLICA)]))
  = (Returned None None,
     [Event Warning "AbortingDrain"; UpdatePod "zone1-101" (Runs.pod "zone1-101" true []);
      Event Warning "AbortingDrain"]).
Proof. vm_compute. reflexivity. Qed.

(** C2 (amended): if some Pod carries an acknowledged or finished marker
    without a started marker, the pass applies no state-machine
    transition, sends no fast-shutdown command and attempts no reparent:
    its only actions are events and updates that clear the acknowledged
    and finished markers of Pods without a drain request. When the reads
    succeed and the shard is healthy and has a primary, the pass does
    issue that clearing update for every Pod of the alias-to-Pod map that
    has no drain request and carries one of the two markers. *)
Theorem reconcileDrain_aborting_freeze (env : Env) (vts : VitessShard) (pods : list Pod)
    (shardR : GoResult Shard) (tabletsR : GoResult (gmap string Tablet)) (k0 : string) (p0 : Pod) :
  map_iter_ok env ->
  podIndex pods !! k0 = Some p0 -> Started p0 = false -> (Acknowledged p0 || Finished p0) = true ->
  Forall (freeze_action (podIndex pods)) (snd (reconcileDrain env vts (GoOk pods) shardR tabletsR)) /\
  (forall shard tablets, shardR = GoOk shard -> tabletsR = GoOk tablets ->
     isShardHealthy env vts = None -> shard_primary shard <> None ->
     forall k p, podIndex pods !! k = Some p -> Started p = false ->
       (Acknowledged p || Finished p) = true ->
       In (UpdatePod k (clearMarkers p)) (snd (reconcileDrain env vts (GoOk pods) shardR tabletsR))).
Proof.
  intros Hiter P0 St0 M0.
  set (idx := podIndex pods) in *.
  assert (Hl : forall k p, In (k, p) (iter env idx) -> idx !! k = Some p).
  { intros k p Hin. apply elem_of_map_to_list. rewrite <- (Hiter _ idx).
    apply list_elem_of_In. exact Hin. }
  assert (Hin_idx : forall k p, idx !! k = Some p -> In (k, p) (iter env idx)).
  { intros k p I. apply list_elem_of_In. unfold iter. rewrite (Hiter _ idx).
    apply elem_of_map_to_list. exact I. }
  split.
  - unfold reconcileDrain.
    destruct shardR as [shard|e]; [|repeat constructor].
    destruct tabletsR as [tablets|e]; [|repeat constructor].
    unfold healthGate. destruct (isShardHealthy env vts); [repeat constructor|].
    unfold primaryGate. destruct (shard_primary shard) as [prim|]; [|repeat constructor].
    unfold drainPhases. simpl ps_pods. fold idx.
    pose proof (load_freeze_log env idx (iter env idx) ∅ false (mkPassState idx [] emptyBuilder) Hl
                  (List.Forall_nil _)) as H1.
    destruct (loadDrainState env (iter env idx) ∅ false (mkPassState idx [] emptyBuilder))
      as [[drains aborting] s1 | s1] eqn:L; simpl in H1; [|exact H1].
    rewrite (load_detects_abort env _ _ _ _ _ _ _ k0 p0 (Hin_idx k0 p0 P0) St0 M0 L).
    destruct (bool_decide (drains = ∅)); [exact H1|].
    apply emit_log; [exact H1 | exact I].
  - intros shard tablets -> -> Hh Hp k p Pk Stk Mk. unfold reconcileDrain, healthGate.
    rewrite Hh. unfold primaryGate.
    destruct (shard_primary shard) as [prim|]; [|exfalso; apply Hp; reflexivity].
    unfold drainPhases. simpl ps_pods. fold idx.
    pose proof (load_clears env (iter env idx) ∅ false (mkPassState idx [] emptyBuilder) k p
                  (Hin_idx k p Pk) Stk Mk) as H1.
    destruct (loadDrainState env (iter env idx) ∅ false (mkPassState idx [] emptyBuilder))
      as [[drains aborting] s1 | s1] eqn:L; simpl in H1; [|exact H1].
    rewrite (load_detects_abort env _ _ _ _ _ _ _ k0 p0 (Hin_idx k0 p0 P0) St0 M0 L).
    destruct (bool_decide (drains = ∅)); [exact H1|].
    simpl. apply in_or_app. left. exact H1.
Qed.

Lemma reconcileDrain_aborting_freeze_witness :
  In (UpdatePod "zone1-101" (clearMarkers (Runs.pod "zone1-101" true [acknowledgedAnnotation])))
    (snd (reconcileDrain (Runs.world (fun _ => {["zone1-100" := FinishedState]}) (fun _ => Some 5%N))
       Runs.shardVts
       (GoOk [Runs.pod "zone1-100" true [startedAnnotation];
              Runs.pod "zone1-101" true [acknowledgedAnnotation]])
       (GoOk (mkShard (Some "zone1-100")))
       (GoOk (Runs.tabletsOf [("zone1-100", PRIMARY); ("zone1-101", REPLICA)])))).
Proof.
  refine (proj2 (reconcileDrain_aborting_freeze _ _ _ _ _ "zone1-101"
                   (Runs.pod "zone1-101" true [acknowledgedAnnotation]) _ _ _ _)
                (mkShard (Some "zone1-100"))
                (Runs.tabletsOf [("zone1-100", PRIMARY); ("zone1-101", REPLICA)])
                eq_refl eq_refl _ _ "zone1-101" (Runs.pod "zone1-101" true [acknowledgedAnnotation])
                _ _ _).
  - intros A m. reflexivity.
  - vm_compute. reflexivity.
  - reflexivity.
  - reflexivity.
  - vm_compute. reflexivity.
  - discriminate.
  - vm_compute. reflexivity.
  - reflexivity.
  - reflexivity.
Defined.

(* ------------------------------------------------------------------ *)
(** * Further properties of the code                                   *)
(* ------------------------------------------------------------------ *)
Lemma take_digits_app (d r : string) :
  all_digits d = true -> no_digit_start r = true -> take_digits (d ++ r) = (d, r).
Proof.
  intros Hd Hr. induction d as [|c d IH]; simpl.
  - destruct r as [|c r]; simpl in *; [reflexivity|].
    apply negb_true_iff in Hr. rewrite Hr. reflexivity.
  - simpl in Hd. apply andb_true_iff in Hd as [Hc Hd]. rewrite Hc, IH by exact Hd. reflexivity.
Qed.

Lemma digits_then_dot_app (d r : string) :
  digit_string d = true -> digits_then_dot (d ++ "." ++ r) = Some (d, r).
Proof.
  intros H. unfold digit_string in H. apply andb_true_iff in H as [Hne Hd].
  unfold digits_then_dot. rewrite take_digits_app by (exact Hd || reflexivity).
  destruct d; [discriminate|]. reflexivity.
Qed.

Lemma FindStringSubmatch_version (d0 d1 d2 sfx : string) :
  digit_string d0 = true -> digit_string d1 = true -> digit_string d2 = true ->
  no_digit_start sfx = true ->
  FindStringSubmatch (d0 ++ "." ++ d1 ++ "." ++ d2 ++ sfx)
  = [d0 ++ "." ++ d1 ++ "." ++ d2; d0; d1; d2].
Proof.
  intros H0 H1 H2 Hs. unfold FindStringSubmatch.
  rewrite digits_then_dot_app by exact H0.
  rewrite digits_then_dot_app by exact H1.
  unfold digit_string in H2. apply andb_true_iff in H2 as [Hne Hd].
  rewrite take_digits_app by assumption.
  destruct d2; [discriminate|]. reflexivity.
Qed.

Lemma version_tag_match (tag d0 d1 d2 : string) :
  version_tag tag d0 d1 d2 -> FindStringSubmatch tag = [d0 ++ "." ++ d1 ++ "." ++ d2; d0; d1; d2].
Proof.
  intros (sfx & -> & H0 & H1 & H2 & Hs). apply FindStringSubmatch_version; assumption.
Qed.

Lemma tagged_inj (r1 v1 r2 v2 : string) :
  split_first_colon r1 = None -> split_first_colon r2 = None ->
  r1 ++ String ":" v1 = r2 ++ String ":" v2 -> v1 = v2.
Proof.
  intros H1 H2 E. apply (f_equal split_first_colon) in E.
  rewrite !split_first_colon_tagged in E by assumption. congruence.
Qed.

(** On two tagged images with version tags, the gate compares the
    matched strings and then the numbers. *)
Lemma safeMysqldUpgrade_versions (r1 t1 r2 t2 c0 c1 c2 d0 d1 d2 : string) :
  split_first_colon r1 = None -> split_first_colon r2 = None ->
  version_tag t1 c0 c1 c2 -> version_tag t2 d0 d1 d2 ->
  safeMysqldUpgrade (r1 ++ String ":" t1) (r2 ++ String ":" t2)
  = if decide ([c0 ++ "." ++ c1 ++ "." ++ c2; c0; c1; c2]
               = [d0 ++ "." ++ d1 ++ "." ++ d2; d0; d1; d2]) then (false, None)
    else version_decision t1 t2 (Atoi c0) (Atoi c1) (Atoi c2) (Atoi d0) (Atoi d1) (Atoi d2).
Proof.
  intros Hr1 Hr2 Ht1 Ht2.
  pose proof (version_tag_match _ _ _ _ Ht1) as F1.
  pose proof (version_tag_match _ _ _ _ Ht2) as F2.
  unfold safeMysqldUpgrade. rewrite !tagged_nonempty. cbn [orb].
  destruct (String.eqb (r2 ++ String ":" t2) (r1 ++ String ":" t1)) eqn:E.
  - apply String.eqb_eq in E. apply tagged_inj in E; [|assumption|assumption]. subst t2.
    rewrite F1 in F2. rewrite <- F2. rewrite decide_True by reflexivity. reflexivity.
  - rewrite (SplitN2_tagged r1), (SplitN2_tagged r2) by assumption.
    rewrite F1, F2. reflexivity.
Qed.

Lemma version_decision_same (t1 t2 : string) (a b c : Z) :
  version_decision t1 t2 a b c a b c = (false, None).
Proof.
  unfold version_decision.
  rewrite Z.ltb_irrefl, (Z.ltb_irrefl b), andb_false_r, !Z.eqb_refl.
  destruct ((a =? 8)%Z && (b =? 0)%Z && (a =? 8)%Z && (b =? 0)%Z).
  - destruct ((34 <=? c)%Z && (34 <=? c)%Z); [reflexivity|]. rewrite Z.ltb_irrefl. reflexivity.
  - reflexivity.
Qed.

Ltac list_inj E := injection E; intros; subst.

Section Gate.

Variables (r1 t1 r2 t2 c0 c1 c2 d0 d1 d2 : string).
Hypotheses (Hr1 : split_first_colon r1 = None) (Hr2 : split_first_colon r2 = None)
           (Ht1 : version_tag t1 c0 c1 c2) (Ht2 : version_tag t2 d0 d1 d2).

Lemma gate_numbers :
  (Atoi c0 <> Atoi d0 \/ Atoi c1 <> Atoi d1 \/ Atoi c2 <> Atoi d2) ->
  safeMysqldUpgrade (r1 ++ String ":" t1) (r2 ++ String ":" t2)
  = version_decision t1 t2 (Atoi c0) (Atoi c1) (Atoi c2) (Atoi d0) (Atoi d1) (Atoi d2).
Proof.
  intros Hne. rewrite (safeMysqldUpgrade_versions r1 t1 r2 t2 c0 c1 c2 d0 d1 d2 Hr1 Hr2 Ht1 Ht2).
  rewrite decide_False; [reflexivity|]. intros E. list_inj E. intuition congruence.
Qed.

(** safeMysqldUpgrade: when both tags carry a version whose three numbers
    are equal (the tags may still differ, e.g. by a suffix or by leading
    zeros), no safe upgrade is needed and there is no error. *)
Lemma safeMysqldUpgrade_same_numbers :
  Atoi c0 = Atoi d0 -> Atoi c1 = Atoi d1 -> Atoi c2 = Atoi d2 ->
  safeMysqldUpgrade (r1 ++ String ":" t1) (r2 ++ String ":" t2) = (false, None).
Proof.
  intros E0 E1 E2. rewrite (safeMysqldUpgrade_versions r1 t1 r2 t2 c0 c1 c2 d0 d1 d2 Hr1 Hr2 Ht1 Ht2).
  destruct (decide _); [reflexivity|].
  rewrite <- E0, <- E1, <- E2. apply version_decision_same.
Qed.

(** safeMysqldUpgrade: on a major upgrade the gate asks for a safe
    upgrade, unless the desired major equals the current minor and the
    desired minor is below it, where the minor-downgrade error is
    returned. *)
Lemma safeMysqldUpgrade_major_upgrade :
  (Atoi c0 < Atoi d0)%Z ->
  safeMysqldUpgrade (r1 ++ String ":" t1) (r2 ++ String ":" t2)
  = if (Atoi d0 =? Atoi c1)%Z && (Atoi d1 <? Atoi c1)%Z
    then (false, Some ("cannot downgrade minor version from " ++ t1 ++ " to " ++ t2))
    else (true, None).
Proof.
  intros Hlt. rewrite gate_numbers by lia. unfold version_decision.
  replace (Atoi d0 <? Atoi c0)%Z with false by (symmetry; apply Z.ltb_ge; lia).
  destruct ((Atoi d0 =? Atoi c1)%Z && (Atoi d1 <? Atoi c1)%Z); [reflexivity|].
  replace ((Atoi d0 =? 8)%Z && (Atoi d1 =? 0)%Z && (Atoi c0 =? 8)%Z && (Atoi c1 =? 0)%Z) with false.
  - replace (Atoi d0 =? Atoi c0)%Z with false by (symmetry; apply Z.eqb_neq; lia). reflexivity.
  - destruct (Atoi d0 =? 8)%Z eqn:A; [|reflexivity]. destruct (Atoi c0 =? 8)%Z eqn:B;
      [|rewrite !andb_false_r; reflexivity].
    apply Z.eqb_eq in A, B. lia.
Qed.

End Gate.

(** safeMysqldUpgrade: with equal majors and a greater desired minor, a
    safe upgrade is needed and there is no error. *)
Theorem safeMysqldUpgrade_minor_upgrade (r1 t1 r2 t2 c0 c1 c2 d0 d1 d2 : string) :
  split_first_colon r1 = None -> split_first_colon r2 = None ->
  version_tag t1 c0 c1 c2 -> version_tag t2 d0 d1 d2 ->
  Atoi d0 = Atoi c0 -> (Atoi c1 < Atoi d1)%Z ->
  safeMysqldUpgrade (r1 ++ String ":" t1) (r2 ++ String ":" t2) = (true, None).
Proof.
  intros Hr1 Hr2 Ht1 Ht2 E0 Hlt.
  rewrite (safeMysqldUpgrade_versions r1 t1 r2 t2 c0 c1 c2 d0 d1 d2 Hr1 Hr2 Ht1 Ht2).
  destruct (decide _) as [E|_]; [list_inj E; lia|].
  unfold version_decision. rewrite E0, Z.ltb_irrefl, Z.eqb_refl.
  replace (Atoi d1 <? Atoi c1)%Z with false by (symmetry; apply Z.ltb_ge; lia).
  replace (Atoi d1 =? Atoi c1)%Z with false by (symmetry; apply Z.eqb_neq; lia).
  rewrite andb_false_r.
  destruct (Atoi d1 =? 0)%Z eqn:A; destruct (Atoi c1 =? 0)%Z eqn:B;
    rewrite ?andb_false_r, ?andb_false_l; try reflexivity.
  apply Z.eqb_eq in A, B. lia.
Qed.

(** safeMysqldUpgrade: with equal majors and a smaller desired minor, the
    minor-downgrade error is returned only when the desired major equals
    the current minor; otherwise the gate asks for a safe upgrade. *)
Theorem safeMysqldUpgrade_minor_downgrade_guard (r1 t1 r2 t2 c0 c1 c2 d0 d1 d2 : string) :
  split_first_colon r1 = None -> split_first_colon r2 = None ->
  version_tag t1 c0 c1 c2 -> version_tag t2 d0 d1 d2 ->
  Atoi d0 = Atoi c0 -> (Atoi d1 < Atoi c1)%Z ->
  safeMysqldUpgrade (r1 ++ String ":" t1) (r2 ++ String ":" t2)
  = if (Atoi d0 =? Atoi c1)%Z
    then (false, Some ("cannot downgrade minor version from " ++ t1 ++ " to " ++ t2))
    else (true, None).
Proof.
  intros Hr1 Hr2 Ht1 Ht2 E0 Hlt.
  rewrite (safeMysqldUpgrade_versions r1 t1 r2 t2 c0 c1 c2 d0 d1 d2 Hr1 Hr2 Ht1 Ht2).
  destruct (decide _) as [E|_]; [list_inj E; lia|].
  unfold version_decision. rewrite E0, Z.ltb_irrefl.
  replace (Atoi d1 <? Atoi c1)%Z with true by (symmetry; apply Z.ltb_lt; lia).
  rewrite andb_true_r.
  destruct (Atoi c0 =? Atoi c1)%Z; [reflexivity|].
  rewrite Z.eqb_refl.
  replace (Atoi d1 =? Atoi c1)%Z with false by (symmetry; apply Z.eqb_neq; lia).
  destruct (Atoi d1 =? 0)%Z eqn:A; destruct (Atoi c1 =? 0)%Z eqn:B;
    rewrite ?andb_false_r, ?andb_false_l; try reflexivity.
  apply Z.eqb_eq in A, B. lia.
Qed.

(** safeMysqldUpgrade: outside 8.0, a change of the patch number alone (in
    either direction) needs no safe upgrade and gives no error. *)
Theorem safeMysqldUpgrade_patch_change_outside_80 (r1 t1 r2 t2 c0 c1 c2 d0 d1 d2 : string) :
  split_first_colon r1 = None -> split_first_colon r2 = None ->
  version_tag t1 c0 c1 c2 -> version_tag t2 d0 d1 d2 ->
  Atoi d0 = Atoi c0 -> Atoi d1 = Atoi c1 -> ~ (Atoi d0 = 8%Z /\ Atoi d1 = 0%Z) ->
  safeMysqldUpgrade (r1 ++ String ":" t1) (r2 ++ String ":" t2) = (false, None).
Proof.
  intros Hr1 Hr2 Ht1 Ht2 E0 E1 Hn.
  rewrite (safeMysqldUpgrade_versions r1 t1 r2 t2 c0 c1 c2 d0 d1 d2 Hr1 Hr2 Ht1 Ht2).
  destruct (decide _) as [E|_]; [reflexivity|].
  unfold version_decision. rewrite E0, E1, !Z.ltb_irrefl, andb_false_r, !Z.eqb_refl.
  destruct (Atoi c0 =? 8)%Z eqn:A; destruct (Atoi c1 =? 0)%Z eqn:B;
    rewrite ?andb_false_r, ?andb_false_l; try reflexivity.
  apply Z.eqb_eq in A, B. exfalso. apply Hn. lia.
Qed.

(** safeMysqldUpgrade: within 8.0, two patches at 34 or above need no safe
    upgrade; a patch downgrade with the desired patch below 34 is an
    error; a patch upgrade from below 34 needs a safe upgrade. *)
Theorem safeMysqldUpgrade_patch_rules_80 (r1 t1 r2 t2 c0 c1 c2 d0 d1 d2 : string) :
  split_first_colon r1 = None -> split_first_colon r2 = None ->
  version_tag t1 c0 c1 c2 -> version_tag t2 d0 d1 d2 ->
  Atoi c0 = 8%Z -> Atoi d0 = 8%Z -> Atoi c1 = 0%Z -> Atoi d1 = 0%Z ->
  ((34 <= Atoi c2)%Z -> (34 <= Atoi d2)%Z ->
   safeMysqldUpgrade (r1 ++ String ":" t1) (r2 ++ String ":" t2) = (false, None)) /\
  ((Atoi d2 < Atoi c2)%Z -> (Atoi d2 < 34)%Z ->
   safeMysqldUpgrade (r1 ++ String ":" t1) (r2 ++ String ":" t2)
   = (false, Some ("cannot downgrade patch version from " ++ t1 ++ " to " ++ t2))) /\
  ((Atoi c2 < Atoi d2)%Z -> (Atoi c2 < 34)%Z ->
   safeMysqldUpgrade (r1 ++ String ":" t1) (r2 ++ String ":" t2) = (true, None)).
Proof.
  intros Hr1 Hr2 Ht1 Ht2 C0 D0 C1 D1.
  rewrite (safeMysqldUpgrade_versions r1 t1 r2 t2 c0 c1 c2 d0 d1 d2 Hr1 Hr2 Ht1 Ht2).
  unfold version_decision. rewrite C0, D0, C1, D1. cbn -[Z.leb Z.ltb Z.eqb].
  repeat split; intros Ha Hb; (destruct (decide _) as [E|_]; [list_inj E; try reflexivity; lia|]).
  - replace (34 <=? Atoi d2)%Z with true by (symmetry; apply Z.leb_le; lia).
    replace (34 <=? Atoi c2)%Z with true by (symmetry; apply Z.leb_le; lia). reflexivity.
  - replace (34 <=? Atoi d2)%Z with false by (symmetry; apply Z.leb_gt; lia).
    replace (Atoi d2 <? Atoi c2)%Z with true by (symmetry; apply Z.ltb_lt; lia). reflexivity.
  - replace (34 <=? Atoi c2)%Z with false by (symmetry; apply Z.leb_gt; lia).
    rewrite andb_false_r.
    replace (Atoi d2 <? Atoi c2)%Z with false by (symmetry; apply Z.ltb_ge; lia).
    replace (Atoi d2 =? Atoi c2)%Z with false by (symmetry; apply Z.eqb_neq; lia).
    destruct (34 <=? Atoi d2)%Z; reflexivity.
Qed.

(** safeMysqldUpgrade never returns an error together with true: every
    error comes with false. *)
Theorem safeMysqldUpgrade_true_without_error (current desired : string) (e : string) :
  safeMysqldUpgrade current desired <> (true, Some e).
Proof.
  unfold safeMysqldUpgrade.
  repeat case_match; try discriminate.
  all: unfold version_decision in *; repeat case_match; discriminate.
Qed.

Lemma same_but_markers_refl p : same_but_markers p p.
Proof. repeat split; auto. Qed.

Lemma same_but_markers_trans p0 p1 p2 :
  same_but_markers p0 p1 -> same_but_markers p1 p2 -> same_but_markers p0 p2.
Proof.
  intros (A1 & B1 & C1 & D1 & E1 & F1) (A2 & B2 & C2 & D2 & E2 & F2).
  repeat split; try congruence. intros k H1 H2. rewrite F2, F1 by assumption. reflexivity.
Qed.

Lemma same_but_markers_insert p k v :
  k = finishedAnnotation \/ k = acknowledgedAnnotation ->
  same_but_markers p (set_annotations p (<[k := v]> (pod_annotations p))).
Proof.
  intros Hk. repeat split; auto. intros k' H1 H2. simpl.
  rewrite lookup_insert_ne; [reflexivity|]. intros ->. destruct Hk; congruence.
Qed.

Lemma same_but_markers_delete p k :
  k = finishedAnnotation \/ k = acknowledgedAnnotation ->
  same_but_markers p (set_annotations p (delete k (pod_annotations p))).
Proof.
  intros Hk. repeat split; auto. intros k' H1 H2. simpl.
  rewrite lookup_delete_ne; [reflexivity|]. intros ->. destruct Hk; congruence.
Qed.

Lemma updateDrainStatus_same (env : Env) (pod p' : Pod) (st : State) (w : bool) (e : option string) :
  updateDrainStatus env pod st = Some (p', w, e) -> same_but_markers pod p'.
Proof.
  unfold updateDrainStatus. destruct st.
  - destruct (Finished pod);
      [destruct (Acknowledged (Unfinish pod)) | destruct (Acknowledged pod)];
      simpl; intros E; injection E as <- _ _.
    + eapply same_but_markers_trans; apply same_but_markers_delete; auto.
    + apply same_but_markers_delete; auto.
    + apply same_but_markers_delete; auto.
    + apply same_but_markers_refl.
  - discriminate.
  - destruct (Acknowledged pod); simpl; intros E; injection E as <- _ _;
      [apply same_but_markers_refl | apply same_but_markers_insert; auto].
  - destruct (Finished pod); simpl; intros E; injection E as <- _ _;
      [apply same_but_markers_refl | apply same_but_markers_insert; auto].
Qed.

Lemma same_but_markers_Started p0 p : same_but_markers p0 p -> Started p = Started p0.
Proof.
  intros (_ & _ & _ & _ & _ & H). unfold Started, has. rewrite H by discriminate. reflexivity.
Qed.

Lemma has_annotations (k : string) (p q : Pod) :
  pod_annotations p = pod_annotations q -> has k p = has k q.
Proof. intros E. unfold has. rewrite E. reflexivity. Qed.

(** updateDrainStatus issues a client update exactly when the annotations
    of the Pod it returns differ from the original ones, and its error is
    that of the update, or none when no update is issued. *)
Theorem updateDrainStatus_writes_iff_changed (env : Env) (pod p' : Pod) (st : State) (w : bool) (e : option string) :
  updateDrainStatus env pod st = Some (p', w, e) ->
  (w = true <-> pod_annotations p' <> pod_annotations pod) /\
  e = (if w then env_Update env p' else None).
Proof.
  unfold updateDrainStatus. destruct st.
  - destruct (Finished pod) eqn:F.
    + destruct (Acknowledged (Unfinish pod)); simpl; intros E; injection E as <- <- <-;
        (split; [|reflexivity]); (split; [|reflexivity]); intros _ Ea;
        apply (has_annotations finishedAnnotation) in Ea; fold (Finished pod) in Ea.
      * rewrite <- Ea, Finished_Unacknowledge, Finished_Unfinish in F. discriminate.
      * rewrite <- Ea, Finished_Unfinish in F. discriminate.
    + destruct (Acknowledged pod) eqn:A; simpl; intros E; injection E as <- <- <-;
        (split; [|reflexivity]).
      * split; [|reflexivity]. intros _ Ea.
        apply (has_annotations acknowledgedAnnotation) in Ea. fold (Acknowledged pod) in Ea.
        unfold Unfinish, Unacknowledge, Acknowledged in Ea, A.
        rewrite has_delete_same in Ea. congruence.
      * split; [discriminate|]. intros H. exfalso. apply H. reflexivity.
  - discriminate.
  - destruct (Acknowledged pod) eqn:A; simpl; intros E; injection E as <- <- <-.
    + split; [|reflexivity]. split; [discriminate|]. intros H; exfalso; apply H; reflexivity.
    + split; [|reflexivity]. split; [|reflexivity]. intros _ Ea.
      apply (has_annotations acknowledgedAnnotation) in Ea.
      rewrite Acknowledged_Acknowledge in Ea. fold (Acknowledged pod) in Ea. congruence.
  - destruct (Finished pod) eqn:F; simpl; intros E; injection E as <- <- <-.
    + split; [|reflexivity]. split; [discriminate|]. intros H; exfalso; apply H; reflexivity.
    + split; [|reflexivity]. split; [|reflexivity]. intros _ Ea.
      apply (has_annotations finishedAnnotation) in Ea.
      rewrite Finished_Finish in Ea. fold (Finished pod) in Ea. congruence.
Qed.

(* disableFastShutdown *)
Lemma disableFastShutdown_frame (env : Env) (l : list (string * Pod)) (tablets : gmap string Tablet)
    (desired : string) (s : PassState) :
  ps_pods (snd (disableFastShutdown env l tablets desired s)) = ps_pods s /\
  ps_builder (snd (disableFastShutdown env l tablets desired s)) = ps_builder s /\
  exists new, ps_log (snd (disableFastShutdown env l tablets desired s)) = (ps_log s ++ new)%list /\
    Forall (fun a => (exists k, a = ExecuteFetchAsDba k /\ is_Some (tablets !! k)) \/
                     a = Event Normal "MySQL_Upgrade") new.
Proof.
  revert s. induction l as [|[k pod] rest IH]; intros s; simpl.
  - split; [reflexivity|]. split; [reflexivity|]. exists []. rewrite app_nil_r. auto.
  - destruct (tablets !! k) as [t|] eqn:T; [|apply IH].
    destruct (safeMysqldUpgrade (mysqldImage pod) desired) as [[|] [e|]]; simpl;
      [ (split; [reflexivity|]; split; [reflexivity|]; exists []; rewrite app_nil_r; auto) | |
        (split; [reflexivity|]; split; [reflexivity|]; exists []; rewrite app_nil_r; auto) | apply IH].
    destruct (env_ExecuteFetchAsDba env t); simpl.
    + split; [reflexivity|]. split; [reflexivity|]. exists [ExecuteFetchAsDba k].
      split; [reflexivity|]. constructor; [|constructor]. left. exists k. rewrite T. eauto.
    + destruct (IH (emit (Event Normal "MySQL_Upgrade") (emit (ExecuteFetchAsDba k) s)))
        as (P & B & new & L & F).
      split; [exact P|]. split; [exact B|].
      exists ([ExecuteFetchAsDba k; Event Normal "MySQL_Upgrade"] ++ new)%list.
      rewrite L. simpl. rewrite <- !app_assoc. split; [reflexivity|].
      constructor; [left; exists k; rewrite T; eauto|]. constructor; [right; reflexivity|exact F].
Qed.

(** disableFastShutdown: when it returns no error, no Pod with a tablet
    record had a gate error, and its log is, in loop order, a fast-
    shutdown command and a MySQL_Upgrade event for each Pod with a tablet
    record whose gate says true. *)
Lemma disableFastShutdown_success_log (env : Env) (l : list (string * Pod)) (tablets : gmap string Tablet)
    (desired : string) (s : PassState) :
  fst (disableFastShutdown env l tablets desired s) = None ->
  Forall (fast_shutdown_ok tablets desired) l /\
  ps_log (snd (disableFastShutdown env l tablets desired s))
  = (ps_log s ++ flat_map (fast_shutdown_actions tablets desired) l)%list.
Proof.
  revert s. induction l as [|[k pod] rest IH]; intros s; simpl.
  - intros _. split; [constructor|]. rewrite app_nil_r. reflexivity.
  - unfold fast_shutdown_actions at 1. simpl.
    destruct (tablets !! k) as [t|] eqn:T.
    + destruct (safeMysqldUpgrade (mysqldImage pod) desired) as [[|] [e|]] eqn:G; simpl;
        try discriminate.
      * destruct (env_ExecuteFetchAsDba env t); simpl; [discriminate|].
        intros H. destruct (IH _ H) as [F L]. split.
        -- constructor; [|exact F]. intros _. unfold fast_shutdown_ok. simpl. rewrite G. reflexivity.
        -- rewrite L. simpl. rewrite <- !app_assoc. reflexivity.
      * intros H. destruct (IH _ H) as [F L]. split.
        -- constructor; [|exact F]. intros _. simpl. rewrite G. reflexivity.
        -- rewrite L. reflexivity.
    + intros H. destruct (IH _ H) as [F L]. split.
      * constructor; [|exact F]. intros Hs. simpl in Hs. rewrite T in Hs. destruct Hs; discriminate.
      * exact L.
Qed.

(** disableFastShutdown: an error stops the loop at the first Pod with a
    tablet record whose gate fails or whose fast-shutdown command fails;
    the error is the gate error or the wrapped command error, and the log
    holds exactly the actions of the Pods before it, followed by the
    failed command when the command failed. *)
Lemma disableFastShutdown_first_error (env : Env) (l : list (string * Pod)) (tablets : gmap string Tablet)
    (desired : string) (s : PassState) (e : string) :
  fst (disableFastShutdown env l tablets desired s) = Some e ->
  exists pre k pod t post,
    l = (pre ++ (k, pod) :: post)%list /\ Forall (fast_shutdown_ok tablets desired) pre /\
    tablets !! k = Some t /\
    ((exists b, safeMysqldUpgrade (mysqldImage pod) desired = (b, Some e) /\
       ps_log (snd (disableFastShutdown env l tablets desired s))
       = (ps_log s ++ flat_map (fast_shutdown_actions tablets desired) pre)%list) \/
     (exists e', safeMysqldUpgrade (mysqldImage pod) desired = (true, None) /\
       env_ExecuteFetchAsDba env t = Some e' /\
       e = "failed to disable fast shutdown for tablet " ++ k ++ ": " ++ e' /\
       ps_log (snd (disableFastShutdown env l tablets desired s))
       = (ps_log s ++ flat_map (fast_shutdown_actions tablets desired) pre ++ [ExecuteFetchAsDba k])%list)).
Proof.
  revert s. induction l as [|[k pod] rest IH]; intros s; simpl; [discriminate|].
  destruct (tablets !! k) as [t|] eqn:T.
  - destruct (safeMysqldUpgrade (mysqldImage pod) desired) as [b [e1|]] eqn:G.
    + assert (Hb : disableFastShutdown env ((k, pod) :: rest) tablets desired s = (Some e1, s))
        by (simpl; rewrite T, G; destruct b; reflexivity).
      simpl in Hb. rewrite T, G in Hb. rewrite Hb. simpl.
      intros E. injection E as <-. exists [], k, pod, t, rest.
      split; [reflexivity|]. split; [constructor|]. split; [exact T|].
      left. exists b. split; [exact G|]. simpl. rewrite app_nil_r. reflexivity.
    + simpl. destruct b.
      * destruct (env_ExecuteFetchAsDba env t) as [e'|] eqn:X; simpl.
        -- intros E. injection E as <-. exists [], k, pod, t, rest.
           split; [reflexivity|]. split; [constructor|]. split; [exact T|].
           right. exists e'. repeat split; auto.
        -- intros H. destruct (IH _ H) as (pre & k' & pod' & t' & post & -> & F & T' & R).
           exists ((k, pod) :: pre), k', pod', t', post.
           split; [reflexivity|].
           split; [constructor; [intros _; simpl; rewrite G; reflexivity | exact F]|].
           split; [exact T'|].
           unfold fast_shutdown_actions at 1 2. simpl. rewrite T, G. simpl.
           destruct R as [(b & G' & L) | (e' & G' & X' & Ee & L)]; [left | right].
           ++ exists b. split; [exact G'|]. rewrite L. simpl. rewrite <- !app_assoc. reflexivity.
           ++ exists e'. repeat split; auto. rewrite L. simpl. rewrite <- !app_assoc. reflexivity.
      * intros H. destruct (IH _ H) as (pre & k' & pod' & t' & post & -> & F & T' & R).
        exists ((k, pod) :: pre), k', pod', t', post.
        split; [reflexivity|].
        split; [constructor; [intros _; simpl; rewrite G; reflexivity | exact F]|].
        split; [exact T'|].
        unfold fast_shutdown_actions at 1 2. simpl. rewrite T, G. simpl.
        exact R.
  - intros H. destruct (IH _ H) as (pre & k' & pod' & t' & post & -> & F & T' & R).
    exists ((k, pod) :: pre), k', pod', t', post.
    split; [reflexivity|].
    split; [constructor; [intros Hs; simpl in Hs; rewrite T in Hs; destruct Hs; discriminate | exact F]|].
    split; [exact T'|].
    unfold fast_shutdown_actions at 1 2. simpl. rewrite T. simpl. exact R.
Qed.

(* candidatePrimary without a candidate *)
Lemma collect_candidates_nil (prim : string) (pods : gmap string Pod) (ext : bool)
    (l : list (string * Tablet)) :
  collect_candidates prim pods ext l = [] <-> Forall (fun kt => eligible prim pods ext kt.1 kt.2 = false) l.
Proof.
  induction l as [|[k t] rest IH]; simpl; [split; auto|].
  destruct (eligible prim pods ext k t) eqn:E.
  - split; [discriminate|]. intros F. inversion F as [|? ? H]. simpl in H. congruence.
  - rewrite IH. split; [intros F; constructor; auto | intros F; inversion F; auto].
Qed.

(** candidatePrimary returns nil exactly when no tablet of the map passes
    the candidate filter. *)
Theorem candidatePrimary_none_iff_no_eligible (env : Env) (prim : string) (tablets : gmap string Tablet)
    (pods : gmap string Pod) (ext : bool) :
  map_iter_ok env ->
  candidatePrimary env prim tablets pods ext = None <->
  (forall k t, tablets !! k = Some t -> eligible prim pods ext k t = false).
Proof.
  intros Hiter. unfold candidatePrimary.
  assert (Hc : collect_candidates prim pods ext (iter env tablets) = [] <->
               (forall k t, tablets !! k = Some t -> eligible prim pods ext k t = false)).
  { rewrite collect_candidates_nil, Forall_forall. split.
    - intros H k t Ht. apply (H (k, t)). unfold iter.
      rewrite (Hiter _ tablets). apply elem_of_map_to_list. exact Ht.
    - intros H [k t] Hin. apply H. apply elem_of_map_to_list. rewrite <- (Hiter _ tablets).
      exact Hin. }
  rewrite <- Hc.
  destruct (collect_candidates prim pods ext (iter env tablets)) as [|first rest].
  - split; reflexivity.
  - split; [|discriminate]. cbv zeta. destruct (fst _); discriminate.
Qed.

(* podIndex *)
Lemma podIndex_last (l : list Pod) (k : string) :
  podIndex l !! k = last (filter (fun p => pod_alias p = k) l).
Proof.
  unfold podIndex. induction l as [|p l IH] using rev_ind; simpl; [apply lookup_empty|].
  rewrite fold_left_app. simpl. rewrite filter_app.
  destruct (decide (pod_alias p = k)) as [<- | Hne].
  - rewrite filter_cons_True, filter_nil by reflexivity.
    rewrite lookup_insert_eq, last_snoc. reflexivity.
  - rewrite filter_cons_False, filter_nil by exact Hne.
    rewrite lookup_insert_ne by exact Hne. rewrite app_nil_r. exact IH.
Qed.

(* generic log lemmas *)
Section Logs.

Variables (env : Env) (P : Action -> Prop).
Hypotheses (Pev : forall ty r, P (Event ty r)) (Pup : forall k p, P (UpdatePod k p)).

Lemma record_update_P k r s : Forall P (ps_log s) -> Forall P (ps_log (record_update k r s)).
Proof.
  destruct r as [[p' w] e]. intros H. apply record_update_log; auto.
Qed.

Lemma load_P l d a s :
  Forall P (ps_log s) -> Forall P (ps_log (flow_state (loadDrainState env l d a s))).
Proof.
  revert d a s. induction l as [|[k pod] rest IH]; intros d a s H; simpl; [exact H|].
  destruct (Started pod).
  - destruct (env_GetState env pod) as [st err]. apply IH.
    destruct err; [apply emit_log; auto | exact H].
  - assert (H1 : Forall P (ps_log (if Acknowledged pod || Finished pod
                                   then emit (Event Warning "AbortingDrain") s else s)))
      by (destruct (Acknowledged pod || Finished pod); [apply emit_log; auto | exact H]).
    destruct (updateDrainStatus env pod NotDrainingState) as [r|]; [|exact H1].
    apply IH, record_update_P, H1.
Qed.

Lemma transitions_P prim l a s :
  Forall P (ps_log s) -> Forall P (ps_log (flow_state (applyTransitions env prim l a s))).
Proof.
  revert a s. induction l as [|[k st] rest IH]; intros a s H; simpl; [exact H|].
  destruct (bool_decide (st = FinishedState) && String.eqb k prim); [apply IH; exact H|].
  destruct (ps_pods s !! k) as [pod|]; [|exact H].
  destruct (updateDrainStatus env pod st) as [r|]; [|exact H].
  apply IH, record_update_P, H.
Qed.

Lemma fast_shutdown_P l tablets desired s :
  (forall k, P (ExecuteFetchAsDba k)) ->
  Forall P (ps_log s) -> Forall P (ps_log (snd (disableFastShutdown env l tablets desired s))).
Proof.
  intros Px H. destruct (disableFastShutdown_frame env l tablets desired s) as (_ & _ & new & L & F).
  rewrite L. apply Forall_app. split; [exact H|].
  eapply Forall_impl; [exact F|]. intros a [(k & -> & _) | ->]; auto.
Qed.

End Logs.


Lemma record_update_requeue k r s : no_requeue s -> no_requeue (record_update k r s).
Proof.
  destruct r as [[p' w] e]. unfold record_update, no_requeue.
  destruct w, e; simpl; auto.
Qed.

Lemma load_requeue env l d a s : no_requeue s -> no_requeue (flow_state (loadDrainState env l d a s)).
Proof.
  revert d a s. induction l as [|[k pod] rest IH]; intros d a s H; simpl; [exact H|].
  destruct (Started pod).
  - destruct (env_GetState env pod) as [st err]. apply IH. destruct err; exact H.
  - assert (H1 : no_requeue (if Acknowledged pod || Finished pod
                             then emit (Event Warning "AbortingDrain") s else s))
      by (destruct (Acknowledged pod || Finished pod); exact H).
    destruct (updateDrainStatus env pod NotDrainingState) as [r|]; [|exact H1].
    apply IH, record_update_requeue, H1.
Qed.

Lemma transitions_requeue env prim l a s :
  no_requeue s -> no_requeue (flow_state (applyTransitions env prim l a s)).
Proof.
  revert a s. induction l as [|[k st] rest IH]; intros a s H; simpl; [exact H|].
  destruct (bool_decide (st = FinishedState) && String.eqb k prim); [apply IH; exact H|].
  destruct (ps_pods s !! k) as [pod|]; [|exact H].
  destruct (updateDrainStatus env pod st) as [r|]; [|exact H].
  apply IH, record_update_requeue, H.
Qed.

Lemma fast_shutdown_requeue env l tablets desired s :
  no_requeue s -> no_requeue (snd (disableFastShutdown env l tablets desired s)).
Proof.
  intros H. unfold no_requeue.
  destruct (disableFastShutdown_frame env l tablets desired s) as (_ & B & _). rewrite B. exact H.
Qed.

(* The requeue delay of a pass *)
Lemma reparentPhase_requeue env vts prim tablets drains transitions acked s d err log :
  no_requeue s ->
  reparentPhase env vts prim tablets drains transitions acked s = (Returned (Some d) err, log) ->
  d = env_replicationRequeueDelay env /\ In (Event Warning "DrainBlocked") log.
Proof.
  intros H. unfold reparentPhase, finish, no_requeue in *.
  destruct (acked && negb (isFinished drains prim)); simpl.
  { rewrite H. discriminate. }
  destruct (negb (isFinished drains prim) && negb (isFinished transitions prim)); simpl.
  { rewrite H. discriminate. }
  destruct (candidatePrimary env prim tablets (ps_pods s) (vts_using_external vts)) as [np|].
  2:{ simpl. intros E. injection E as <- _ <-. split; [reflexivity|].
      apply in_or_app. right. left. reflexivity. }
  destruct (if vts_using_external vts then _ else _) as [rerr s1] eqn:Hr.
  assert (Hs1 : b_requeue_after (ps_builder s1) = None).
  { destruct (vts_using_external vts).
    - unfold handleExternalReparent in Hr.
      destruct (env_TabletExternallyReparented env (tablet_alias np)); injection Hr as _ <-; exact H.
    - injection Hr as _ <-. exact H. }
  destruct rerr; simpl; rewrite Hs1; discriminate.
Qed.

(** reconcileDrain: a pass that asks for a requeue asks for the fixed
    replication requeue delay, and only after a failed read of the shard
    record or of the tablet map, or with a DrainBlocked warning in its
    log. *)
Theorem reconcileDrain_requeue_reason (env : Env) (vts : VitessShard) podListR shardR tabletsR d err log :
  reconcileDrain env vts podListR shardR tabletsR = (Returned (Some d) err, log) ->
  d = env_replicationRequeueDelay env /\
  ((exists e, shardR = GoErr e) \/ (exists e, tabletsR = GoErr e) \/
   In (Event Warning "DrainBlocked") log).
Proof.
  unfold reconcileDrain.
  destruct podListR as [pods|e]; [|discriminate].
  destruct shardR as [shard|e]; [|intros E; injection E as <- _ _; eauto].
  destruct tabletsR as [tablets|e]; [|intros E; injection E as <- _ _; eauto].
  unfold healthGate. destruct (isShardHealthy env vts); [discriminate|].
  unfold primaryGate. destruct (shard_primary shard) as [prim|]; [|discriminate].
  unfold drainPhases.
  set (s0 := mkPassState (podIndex pods) [] emptyBuilder).
  pose proof (load_requeue env (iter env (ps_pods s0)) ∅ false s0 eq_refl) as H1.
  destruct (loadDrainState env (iter env (ps_pods s0)) ∅ false s0) as [[drains aborting] s1 | s1];
    [|discriminate]. simpl in H1.
  destruct (bool_decide (drains = ∅)).
  { unfold finish. rewrite H1. discriminate. }
  destruct aborting.
  { unfold finish. simpl. rewrite H1. discriminate. }
  pose proof (transitions_requeue env prim (iter env (env_StateTransitions env drains)) false s1 H1) as H2.
  destruct (applyTransitions env prim (iter env (env_StateTransitions env drains)) false s1)
    as [acked s2 | s2]; [|discriminate]. simpl in H2.
  pose proof (fast_shutdown_requeue env (iter env (ps_pods s2)) tablets (vts_mysqld_image vts) s2 H2) as H3.
  destruct (disableFastShutdown env (iter env (ps_pods s2)) tablets (vts_mysqld_image vts) s2)
    as [[e|] s3]; simpl in H3.
  - unfold finish. simpl. rewrite H3. discriminate.
  - intros R. destruct (reparentPhase_requeue _ _ _ _ _ _ _ _ _ _ _ H3 R). auto.
Qed.

Lemma reparentPhase_shape env vts prim tablets drains transitions acked s :
  exists mid bk,
    snd (reparentPhase env vts prim tablets drains transitions acked s) = (ps_log s ++ mid ++ bk)%list /\
    Forall bookkeeping bk /\
    (mid = [] \/ exists np, candidatePrimary env prim tablets (ps_pods s) (vts_using_external vts) = Some np /\
                            reparent_calls env (vts_using_external vts) prim np mid).
Proof.
  unfold reparentPhase.
  destruct (acked && negb (isFinished drains prim)).
  { exists [], [Event Normal "NotReparentingPrimary"]. simpl. repeat constructor. }
  destruct (negb (isFinished drains prim) && negb (isFinished transitions prim)).
  { exists [], [Event Normal "NotReparentingPrimary"]. simpl. repeat constructor. }
  destruct (candidatePrimary env prim tablets (ps_pods s) (vts_using_external vts)) as [np|] eqn:C.
  2:{ exists [], [Event Warning "DrainBlocked"]. simpl. repeat constructor. }
  assert (Hr : exists mid, snd (if vts_using_external vts
                                then handleExternalReparent env (tablet_alias np) prim s
                                else (env_PlannedReparentShard env (tablet_alias np),
                                      emit (PlannedReparentShard (tablet_alias np)) s))
                           = mkPassState (ps_pods s) (ps_log s ++ mid) (ps_builder s) /\
                           reparent_calls env (vts_using_external vts) prim np mid).
  { unfold reparent_calls. destruct (vts_using_external vts).
    - unfold handleExternalReparent.
      destruct (env_TabletExternallyReparented env (tablet_alias np)) eqn:T.
      + exists [TabletExternallyReparented (tablet_alias np)]. auto.
      + exists [TabletExternallyReparented (tablet_alias np); ChangeTabletType prim SPARE].
        split; [unfold emit; simpl; rewrite <- app_assoc; reflexivity | auto].
    - exists [PlannedReparentShard (tablet_alias np)]. auto. }
  destruct Hr as (mid & Hs & Hc).
  destruct (if vts_using_external vts then _ else _) as [rerr s1]. simpl in Hs. subst s1.
  exists mid, [match rerr with Some _ => Event Warning "PlannedReparentFailed"
                              | None => Event Normal "PlannedReparent" end;
               PlannedReparentCount (bool_decide (is_Some rerr))].
  split.
  - destruct rerr; simpl; rewrite <- !app_assoc; reflexivity.
  - split; [destruct rerr; repeat constructor|]. right. eauto.
Qed.

Lemma reconcileDrain_shape env vts podListR shardR tabletsR :
  exists l0 mid bk,
    snd (reconcileDrain env vts podListR shardR tabletsR) = (l0 ++ mid ++ bk)%list /\
    Forall phase24_action l0 /\ Forall bookkeeping bk /\
    (mid = [] \/ exists shard prim tablets pods np,
        shardR = GoOk shard /\ shard_primary shard = Some prim /\ tabletsR = GoOk tablets /\
        candidatePrimary env prim tablets pods (vts_using_external vts) = Some np /\
        reparent_calls env (vts_using_external vts) prim np mid).
Proof.
  assert (Triv : forall l, Forall phase24_action l -> exists l0 mid bk,
             l = (l0 ++ mid ++ bk)%list /\ Forall phase24_action l0 /\ Forall bookkeeping bk /\
             (mid = [] \/ exists shard prim tablets pods np,
                 shardR = GoOk shard /\ shard_primary shard = Some prim /\ tabletsR = GoOk tablets /\
                 candidatePrimary env prim tablets pods (vts_using_external vts) = Some np /\
                 reparent_calls env (vts_using_external vts) prim np mid)).
  { intros l H. exists l, [], []. rewrite !app_nil_r. auto. }
  unfold reconcileDrain.
  destruct podListR as [pods|e]; [|apply Triv; repeat constructor].
  destruct shardR as [shard|e]; [|apply Triv; repeat constructor].
  destruct tabletsR as [tablets|e]; [|apply Triv; repeat constructor].
  unfold healthGate. destruct (isShardHealthy env vts); [apply Triv; repeat constructor|].
  unfold primaryGate. destruct (shard_primary shard) as [prim|] eqn:Hp; [|apply Triv; repeat constructor].
  unfold drainPhases.
  set (s0 := mkPassState (podIndex pods) [] emptyBuilder).
  assert (Pe : forall ty r, phase24_action (Event ty r)) by (intros; exact I).
  assert (Pu : forall k p, phase24_action (UpdatePod k p)) by (intros; exact I).
  pose proof (load_P env phase24_action Pe Pu (iter env (ps_pods s0)) ∅ false s0 (List.Forall_nil _)) as H1.
  destruct (loadDrainState env (iter env (ps_pods s0)) ∅ false s0) as [[drains aborting] s1 | s1];
    simpl in H1; [|apply Triv; exact H1].
  destruct (bool_decide (drains = ∅)); [apply Triv; exact H1|].
  destruct aborting; [apply Triv, emit_log; [exact H1 | exact I]|].
  pose proof (transitions_P env phase24_action Pe Pu prim (iter env (env_StateTransitions env drains)) false s1 H1) as H2.
  destruct (applyTransitions env prim (iter env (env_StateTransitions env drains)) false s1)
    as [acked s2 | s2]; simpl in H2; [|apply Triv; exact H2].
  pose proof (fast_shutdown_P env phase24_action Pe (iter env (ps_pods s2)) tablets (vts_mysqld_image vts) s2
                (fun _ => I) H2) as H3.
  destruct (disableFastShutdown env (iter env (ps_pods s2)) tablets (vts_mysqld_image vts) s2)
    as [[e|] s3]; simpl in H3.
  - apply Triv. simpl. apply emit_log; [exact H3 | exact I].
  - destruct (reparentPhase_shape env vts prim tablets drains (env_StateTransitions env drains) acked s3)
      as (mid & bk & L & B & M).
    exists (ps_log s3), mid, bk. split; [exact L|]. split; [exact H3|]. split; [exact B|].
    destruct M as [-> | (np & C & R)]; [left; reflexivity|].
    right. exists shard, prim, tablets, (ps_pods s3), np. auto.
Qed.

Lemma omap_reparent_none (l : list Action) :
  Forall (fun a => reparent_target a = None) l -> omap reparent_target l = [].
Proof.
  induction l as [|a l IH]; intros H; [reflexivity|].
  inversion H as [|? ? Ha Hl]; subst. simpl. rewrite Ha. apply IH, Hl.
Qed.

Lemma candidatePrimary_not_primary env prim tablets pods ext np :
  arrival_ok env -> candidatePrimary env prim tablets pods ext = Some np -> tablet_alias np <> prim.
Proof.
  intros Harr C.
  destruct (collect_candidates_sound _ _ _ _ _ (candidatePrimary_from_candidates _ _ _ _ _ _ Harr C))
    as (k & _ & E).
  unfold eligible in E. destruct (String.eqb (tablet_alias np) prim) eqn:A; [discriminate|].
  apply String.eqb_neq in A. exact A.
Qed.

(** reconcileDrain: a pass issues at most one reparent call (planned or
    external), and only toward a tablet other than the shard primary. *)
Theorem reconcileDrain_at_most_one_reparent (env : Env) (vts : VitessShard) podListR shardR tabletsR :
  arrival_ok env ->
  length (omap reparent_target (snd (reconcileDrain env vts podListR shardR tabletsR))) <= 1 /\
  Forall (fun x => exists shard prim, shardR = GoOk shard /\ shard_primary shard = Some prim /\ x <> prim)
    (omap reparent_target (snd (reconcileDrain env vts podListR shardR tabletsR))).
Proof.
  intros Harr.
  destruct (reconcileDrain_shape env vts podListR shardR tabletsR) as (l0 & mid & bk & L & H0 & B & M).
  rewrite L, !omap_app.
  rewrite (omap_reparent_none l0) by (eapply Forall_impl; [exact H0|]; intros [] []; reflexivity).
  rewrite (omap_reparent_none bk) by (eapply Forall_impl; [exact B|]; intros [] []; reflexivity).
  rewrite app_nil_r. simpl.
  destruct M as [-> | (shard & prim & tablets & pods & np & -> & Hp & -> & C & R)];
    [split; [simpl; lia | constructor]|].
  pose proof (candidatePrimary_not_primary _ _ _ _ _ _ Harr C) as Hne.
  unfold reparent_calls in R.
  destruct R as [(_ & ->) | (_ & [-> | (_ & ->)])]; simpl;
    (split; [lia | repeat constructor; eauto]).
Qed.

(** reconcileDrain: the only tablet type change a pass makes is to set the
    shard primary to SPARE, for an external datastore, after a successful
    external reparent call in the same pass. *)
Theorem reconcileDrain_spare_only_old_primary (env : Env) (vts : VitessShard) podListR shardR tabletsR (x : string) (ty : TabletType) :
  In (ChangeTabletType x ty) (snd (reconcileDrain env vts podListR shardR tabletsR)) ->
  ty = SPARE /\ vts_using_external vts = true /\
  (exists shard, shardR = GoOk shard /\ shard_primary shard = Some x) /\
  exists y, In (TabletExternallyReparented y) (snd (reconcileDrain env vts podListR shardR tabletsR)) /\
            env_TabletExternallyReparented env y = None.
Proof.
  destruct (reconcileDrain_shape env vts podListR shardR tabletsR) as (l0 & mid & bk & L & H0 & B & M).
  rewrite L. intros Hin.
  apply in_app_or in Hin as [Hin | Hin].
  { exfalso. rewrite Forall_forall in H0. apply (H0 _ (proj2 (list_elem_of_In _ _) Hin)). }
  apply in_app_or in Hin as [Hin | Hin].
  2:{ exfalso. rewrite Forall_forall in B. apply (B _ (proj2 (list_elem_of_In _ _) Hin)). }
  destruct M as [-> | (shard & prim & tablets & pods & np & -> & Hp & -> & C & R)]; [destruct Hin|].
  unfold reparent_calls in R.
  destruct R as [(_ & ->) | (Hext & [-> | (Ht & ->)])];
    [destruct Hin as [E | []]; discriminate | destruct Hin as [E | []]; discriminate |].
  destruct Hin as [E | [E | []]]; [discriminate|]. injection E as -> ->.
  split; [reflexivity|]. split; [exact Hext|]. split; [eauto|].
  exists (tablet_alias np). split; [|exact Ht].
  apply in_or_app. right. apply in_or_app. left. left. reflexivity.
Qed.

Lemma iter_In (env : Env) {A : Type} (m : gmap string A) (k : string) (x : A) :
  map_iter_ok env -> In (k, x) (iter env m) <-> m !! k = Some x.
Proof.
  intros Hiter. rewrite <- elem_of_map_to_list, <- list_elem_of_In.
  unfold iter. rewrite (Hiter _ m). reflexivity.
Qed.

Lemma load_drains (env : Env) (l : list (string * Pod)) (d : gmap string State) (a : bool)
    (s : PassState) d' a' s' :
  NoDup l.*1 -> loadDrainState env l d a s = Go (d', a') s' ->
  forall k, d' !! k = match (list_to_map l : gmap string Pod) !! k with
                      | Some p => if Started p then Some (fst (env_GetState env p)) else d !! k
                      | None => d !! k
                      end.
Proof.
  revert d a s. induction l as [|[k0 p0] rest IH]; intros d a s Hnd; simpl.
  - intros E k. injection E as -> _ _. rewrite lookup_empty. reflexivity.
  - inversion Hnd as [|? ? Hk0 Hnd']; subst.
    assert (Hr : (list_to_map rest : gmap string Pod) !! k0 = None).
    { apply not_elem_of_list_to_map. exact Hk0. }
    destruct (Started p0) eqn:St.
    + destruct (env_GetState env p0) as [st err] eqn:G. intros L k.
      rewrite (IH _ _ _ Hnd' L k).
      destruct (decide (k = k0)) as [-> | Hne].
      * rewrite Hr, !lookup_insert_eq, St, G. reflexivity.
      * rewrite !lookup_insert_ne by congruence. reflexivity.
    + destruct (updateDrainStatus env p0 NotDrainingState) as [r|]; [|discriminate].
      intros L k. rewrite (IH _ _ _ Hnd' L k).
      destruct (decide (k = k0)) as [-> | Hne].
      * rewrite Hr, lookup_insert_eq, St. reflexivity.
      * rewrite lookup_insert_ne by congruence. reflexivity.
Qed.

Lemma iter_NoDup (env : Env) {A : Type} (m : gmap string A) :
  map_iter_ok env -> NoDup (iter env m).*1.
Proof.
  intros Hiter. unfold iter. rewrite (Hiter _ m). apply NoDup_fst_map_to_list.
Qed.

Lemma iter_list_to_map (env : Env) {A : Type} (m : gmap string A) :
  map_iter_ok env -> (list_to_map (iter env m) : gmap string A) = m.
Proof.
  intros Hiter. unfold iter. rewrite (list_to_map_proper _ (map_to_list m)).
  - apply list_to_map_to_list.
  - rewrite (Hiter _ m). apply NoDup_fst_map_to_list.
  - apply Hiter.
Qed.

Lemma load_drain_input (env : Env) (idx : gmap string Pod) (a : bool) (s : PassState) d' a' s' :
  map_iter_ok env -> loadDrainState env (iter env idx) ∅ a s = Go (d', a') s' ->
  d' = drain_input env idx.
Proof.
  intros Hiter L. apply map_eq. intros k.
  rewrite (load_drains env _ _ _ _ _ _ _ (iter_NoDup env idx Hiter) L k).
  rewrite (iter_list_to_map env idx Hiter). unfold drain_input. rewrite lookup_omap.
  destruct (idx !! k) as [p|]; simpl; [|apply lookup_empty].
  destruct (Started p); [reflexivity | apply lookup_empty].
Qed.

Lemma load_go (env : Env) l d a s : exists d' a' s', loadDrainState env l d a s = Go (d', a') s'.
Proof.
  revert d a s. induction l as [|[k pod] rest IH]; intros d a s; simpl; [eauto|].
  destruct (Started pod); [destruct (env_GetState env pod); apply IH|].
  destruct (updateDrainStatus env pod NotDrainingState) eqn:U; [apply IH|].
  exfalso. unfold updateDrainStatus in U.
  destruct (Finished pod), (Acknowledged _); discriminate.
Qed.

(** loadDrainState, run over the Pod index, always completes and builds
    the drain map that holds, for exactly the Pods with a started marker,
    the state read from the Pod. *)
Theorem loadDrainState_drain_input (env : Env) (idx : gmap string Pod) (s : PassState) :
  map_iter_ok env ->
  exists aborting s', loadDrainState env (iter env idx) ∅ false s = Go (drain_input env idx, aborting) s'.
Proof.
  intros Hiter. destruct (load_go env (iter env idx) ∅ false s) as (d' & a' & s' & L).
  exists a', s'. rewrite L. rewrite (load_drain_input env idx false s d' a' s' Hiter L). reflexivity.
Qed.

(* the pods invariant *)
Lemma pods_inv_emit idx a s : (forall k p, a <> UpdatePod k p) -> pods_inv idx s -> pods_inv idx (emit a s).
Proof.
  intros Ha (K & P & L). split; [exact K|]. split; [exact P|].
  simpl. apply Forall_app. split; [exact L|]. constructor; [|constructor].
  intros k p E. exfalso. exact (Ha k p E).
Qed.

Lemma pods_inv_event idx ty r s : pods_inv idx s -> pods_inv idx (emit (Event ty r) s).
Proof. apply pods_inv_emit. discriminate. Qed.

Lemma pods_inv_record idx k p0 p' w e s :
  idx !! k = Some p0 -> same_but_markers p0 p' -> pods_inv idx s ->
  pods_inv idx (record_update k (p', w, e) s).
Proof.
  intros I0 Sm (K & P & L).
  assert (Hs : pods_inv idx (store k p' s)).
  { split; [|split; [|exact L]]; simpl.
    - intros k'. destruct (decide (k' = k)) as [-> | Hne].
      + rewrite lookup_insert_eq, I0. split; intros _; eauto.
      + rewrite lookup_insert_ne by congruence. apply K.
    - intros k' p. destruct (decide (k' = k)) as [-> | Hne].
      + rewrite lookup_insert_eq. intros E; injection E as <-. eauto.
      + rewrite lookup_insert_ne by congruence. apply P. }
  unfold record_update.
  assert (Hw : pods_inv idx (if w then emit (UpdatePod k p') (store k p' s) else store k p' s)).
  { destruct w; [|exact Hs].
    destruct Hs as (K' & P' & L'). split; [exact K'|]. split; [exact P'|].
    simpl. apply Forall_app. split; [exact L'|]. constructor; [|constructor].
    intros k'' p'' E. injection E as <- <-. eauto. }
  destruct e; [|exact Hw]. apply pods_inv_event, Hw.
Qed.

Lemma pods_inv_load env idx l d a s :
  (forall k p, In (k, p) l -> idx !! k = Some p) ->
  pods_inv idx s -> pods_inv idx (flow_state (loadDrainState env l d a s)).
Proof.
  revert d a s. induction l as [|[k pod] rest IH]; intros d a s Hl H; simpl; [exact H|].
  assert (Hrest : forall k' p', In (k', p') rest -> idx !! k' = Some p')
    by (intros; apply Hl; right; auto).
  destruct (Started pod).
  - destruct (env_GetState env pod) as [st err]. apply IH; [exact Hrest|].
    destruct err; [apply pods_inv_event|]; exact H.
  - assert (H1 : pods_inv idx (if Acknowledged pod || Finished pod
                               then emit (Event Warning "AbortingDrain") s else s))
      by (destruct (Acknowledged pod || Finished pod); [apply pods_inv_event|]; exact H).
    destruct (updateDrainStatus env pod NotDrainingState) as [[[p' w] e]|] eqn:U; [|exact H1].
    apply IH; [exact Hrest|].
    apply (pods_inv_record idx k pod); [apply Hl; left; reflexivity | | exact H1].
    exact (updateDrainStatus_same _ _ _ _ _ _ U).
Qed.

Lemma updateDrainStatus_none env pod st : updateDrainStatus env pod st = None -> st = DrainingState.
Proof.
  unfold updateDrainStatus. destruct st; auto.
  - destruct (Finished pod), (Acknowledged _); discriminate.
  - destruct (Acknowledged pod); discriminate.
  - destruct (Finished pod); discriminate.
Qed.

Lemma pods_inv_transitions env idx prim l a s :
  pods_inv idx s ->
  pods_inv idx (flow_state (applyTransitions env prim l a s)) /\
  (forall s', applyTransitions env prim l a s = Panic s' ->
   exists k st, In (k, st) l /\ ~ (st = FinishedState /\ k = prim) /\
                (st = DrainingState \/ idx !! k = None)).
Proof.
  revert a s. induction l as [|[k st] rest IH]; intros a s H; simpl; [split; [exact H | discriminate]|].
  destruct (bool_decide (st = FinishedState) && String.eqb k prim) eqn:Skip.
  { destruct (IH a s H) as [H1 H2]. split; [exact H1|].
    intros s' Pn. destruct (H2 s' Pn) as (k' & st' & ? & ?). eauto 6. }
  assert (Hns : ~ (st = FinishedState /\ k = prim)).
  { intros [-> ->]. rewrite bool_decide_true in Skip by reflexivity.
    rewrite String.eqb_refl in Skip. discriminate. }
  destruct (ps_pods s !! k) as [pod|] eqn:P.
  - destruct (updateDrainStatus env pod st) as [[[p' w] e]|] eqn:U.
    + destruct (proj1 (proj2 H) k pod P) as (p0 & I0 & Sm).
      assert (H' : pods_inv idx (record_update k (p', w, e) s)).
      { apply (pods_inv_record idx k p0); [exact I0 | | exact H].
        eapply same_but_markers_trans; [exact Sm | exact (updateDrainStatus_same _ _ _ _ _ _ U)]. }
      destruct (IH (a || bool_decide (st = AcknowledgedState)) _ H') as [H1 H2].
      split; [exact H1|]. intros s' Pn. destruct (H2 s' Pn) as (k' & st' & ? & ?). eauto 6.
    + split; [exact H|]. intros s' _. exists k, st. split; [left; reflexivity|]. split; [exact Hns|].
      left. exact (updateDrainStatus_none _ _ _ U).
  - split; [exact H|]. intros s' _. exists k, st. split; [left; reflexivity|]. split; [exact Hns|].
    right. destruct (idx !! k) eqn:I; [|reflexivity].
    exfalso. destruct (proj2 (proj1 H k)) as [? E]; [rewrite I; eauto | congruence].
Qed.

Lemma pods_inv_fast_shutdown env idx l tablets desired s :
  pods_inv idx s -> pods_inv idx (snd (disableFastShutdown env l tablets desired s)).
Proof.
  intros (K & P & L). destruct (disableFastShutdown_frame env l tablets desired s) as (Pp & _ & new & Lg & F).
  split; [rewrite Pp; exact K|]. split; [rewrite Pp; exact P|].
  rewrite Lg. apply Forall_app. split; [exact L|].
  eapply Forall_impl; [exact F|]. intros a [(k & -> & _) | ->] k' p' E; discriminate.
Qed.

Lemma podIndex_In (pods : list Pod) (k : string) (p : Pod) :
  podIndex pods !! k = Some p -> In p pods /\ pod_alias p = k.
Proof.
  rewrite podIndex_last. intros L. apply last_Some_elem_of in L.
  apply list_elem_of_filter in L as [Ha Hin]. split; [apply list_elem_of_In; exact Hin | exact Ha].
Qed.

Lemma pods_inv_reparent env vts idx prim tablets drains transitions acked s :
  pods_inv idx s -> Forall (written_from idx) (snd (reparentPhase env vts prim tablets drains transitions acked s)).
Proof.
  intros (_ & _ & L).
  destruct (reparentPhase_shape env vts prim tablets drains transitions acked s) as (mid & bk & E & B & M).
  rewrite E. apply Forall_app. split; [exact L|]. apply Forall_app. split.
  - destruct M as [-> | (np & _ & R)]; [constructor|].
    unfold reparent_calls in R.
    destruct R as [(_ & ->) | (_ & [-> | (_ & ->)])]; repeat constructor; intros ? ? Ea; discriminate.
  - eapply Forall_impl; [exact B|]. intros [] Hb k p' Ea; try discriminate; destruct Hb.
Qed.

Lemma pods_inv_drainPhases env vts idx prim tablets s :
  map_iter_ok env -> ps_pods s = idx -> pods_inv idx s ->
  Forall (written_from idx) (snd (drainPhases env vts prim tablets s)).
Proof.
  intros Hiter Hs H. unfold drainPhases.
  assert (Hl : forall k p, In (k, p) (iter env (ps_pods s)) -> idx !! k = Some p).
  { intros k p Hin. rewrite <- Hs. apply (iter_In env). exact Hiter. exact Hin. }
  pose proof (pods_inv_load env idx (iter env (ps_pods s)) ∅ false s Hl H) as H1.
  destruct (loadDrainState env (iter env (ps_pods s)) ∅ false s) as [[drains aborting] s1 | s1];
    simpl in H1; [|exact (proj2 (proj2 H1))].
  destruct (bool_decide (drains = ∅)); [exact (proj2 (proj2 H1))|].
  destruct aborting; [exact (proj2 (proj2 (pods_inv_event _ _ _ _ H1)))|].
  destruct (pods_inv_transitions env idx prim (iter env (env_StateTransitions env drains)) false s1 H1)
    as [H2 _].
  destruct (applyTransitions env prim (iter env (env_StateTransitions env drains)) false s1)
    as [acked s2 | s2]; simpl in H2; [|exact (proj2 (proj2 H2))].
  pose proof (pods_inv_fast_shutdown env idx (iter env (ps_pods s2)) tablets (vts_mysqld_image vts) s2 H2) as H3.
  destruct (disableFastShutdown env (iter env (ps_pods s2)) tablets (vts_mysqld_image vts) s2)
    as [[e|] s3]; simpl in H3.
  - exact (proj2 (proj2 (pods_inv_event _ _ _ _ H3))).
  - apply pods_inv_reparent. exact H3.
Qed.

(** reconcileDrain: every Pod update of a pass writes a Pod of the listed
    Pods with the same alias, changed only in the acknowledged and
    finished annotations; its started marker is kept. *)
Theorem reconcileDrain_writes_only_markers (env : Env) (vts : VitessShard) (pods : list Pod) shardR tabletsR :
  map_iter_ok env ->
  Forall (fun a => forall k p', a = UpdatePod k p' ->
            exists p0, In p0 pods /\ pod_alias p0 = k /\ same_but_markers p0 p' /\
                       Started p' = Started p0)
    (snd (reconcileDrain env vts (GoOk pods) shardR tabletsR)).
Proof.
  intros Hiter.
  assert (Hw : Forall (written_from (podIndex pods)) (snd (reconcileDrain env vts (GoOk pods) shardR tabletsR))).
  { unfold reconcileDrain.
    destruct shardR as [shard|e]; [|repeat constructor; intros ? ? E; discriminate].
    destruct tabletsR as [tablets|e]; [|repeat constructor; intros ? ? E; discriminate].
    unfold healthGate. destruct (isShardHealthy env vts); [repeat constructor; intros ? ? E; discriminate|].
    unfold primaryGate. destruct (shard_primary shard) as [prim|]; [|repeat constructor; intros ? ? E; discriminate].
    apply pods_inv_drainPhases; [exact Hiter | reflexivity|].
    split; [simpl; reflexivity|]. split; [|constructor].
    simpl. intros k p E. exists p. split; [exact E | apply same_but_markers_refl]. }
  eapply Forall_impl; [exact Hw|]. intros a Ha k p' E.
  destruct (Ha k p' E) as (p0 & I0 & Sm). destruct (podIndex_In _ _ _ I0) as [Hin Hal].
  exists p0. split; [exact Hin|]. split; [exact Hal|]. split; [exact Sm|].
  apply same_but_markers_Started. exact Sm.
Qed.

Lemma reparentPhase_returns env vts prim tablets drains transitions acked s :
  exists r e, fst (reparentPhase env vts prim tablets drains transitions acked s) = Returned r e.
Proof.
  unfold reparentPhase.
  destruct (acked && negb (isFinished drains prim)); [eauto|].
  destruct (negb (isFinished drains prim) && negb (isFinished transitions prim)); [eauto|].
  destruct (candidatePrimary env prim tablets (ps_pods s) (vts_using_external vts)); [|eauto].
  destruct (if vts_using_external vts then _ else _). eauto.
Qed.

(** reconcileDrain: a pass panics only when the state machine proposes,
    for some alias, a state other than finished-for-the-primary that is
    either DrainingState or names an alias with no Pod. *)
Theorem reconcileDrain_panic_origin (env : Env) (vts : VitessShard) podListR shardR tabletsR :
  map_iter_ok env ->
  fst (reconcileDrain env vts podListR shardR tabletsR) = Panicked ->
  exists pods shard prim k st,
    podListR = GoOk pods /\ shardR = GoOk shard /\ shard_primary shard = Some prim /\
    env_StateTransitions env (drain_input env (podIndex pods)) !! k = Some st /\
    ~ (st = FinishedState /\ k = prim) /\
    (st = DrainingState \/ podIndex pods !! k = None).
Proof.
  intros Hiter. unfold reconcileDrain.
  destruct podListR as [pods|e]; [|discriminate].
  destruct shardR as [shard|e]; [|discriminate].
  destruct tabletsR as [tablets|e]; [|discriminate].
  unfold healthGate. destruct (isShardHealthy env vts); [discriminate|].
  unfold primaryGate. destruct (shard_primary shard) as [prim|] eqn:Hp; [|discriminate].
  unfold drainPhases. simpl ps_pods.
  set (idx := podIndex pods).
  set (s0 := mkPassState idx [] emptyBuilder).
  assert (H0 : pods_inv idx s0).
  { split; [reflexivity|]. split; [|constructor].
    simpl. intros k p E. exists p. split; [exact E | apply same_but_markers_refl]. }
  assert (Hl : forall k p, In (k, p) (iter env idx) -> idx !! k = Some p)
    by (intros k p; apply (iter_In env); exact Hiter).
  pose proof (pods_inv_load env idx (iter env idx) ∅ false s0 Hl H0) as H1.
  destruct (loadDrainState env (iter env idx) ∅ false s0) as [[drains aborting] s1 | s1] eqn:L.
  2:{ destruct (load_go env (iter env idx) ∅ false s0) as (? & ? & ? & L'). congruence. }
  simpl in H1. pose proof (load_drain_input env idx false s0 drains aborting s1 Hiter L) as Ed.
  subst drains.
  destruct (bool_decide (drain_input env idx = ∅)); [discriminate|].
  destruct aborting; [discriminate|].
  destruct (pods_inv_transitions env idx prim (iter env (env_StateTransitions env (drain_input env idx))) false s1 H1)
    as [_ Hpanic].
  destruct (applyTransitions env prim (iter env (env_StateTransitions env (drain_input env idx))) false s1)
    as [acked s2 | s2] eqn:T.
  - destruct (disableFastShutdown env (iter env (ps_pods s2)) tablets (vts_mysqld_image vts) s2)
      as [[e|] s3]; [discriminate|].
    destruct (reparentPhase_returns env vts prim tablets (drain_input env idx)
                (env_StateTransitions env (drain_input env idx)) acked s3) as (r & e & ->).
    discriminate.
  - intros _. destruct (Hpanic s2 eq_refl) as (k & st & Hin & Hns & Hd).
    exists pods, shard, prim, k, st. repeat split; auto.
    apply (iter_In env); [exact Hiter | exact Hin].
Qed.

Lemma drain_input_empty (env : Env) (pods : list Pod) :
  Forall (fun p => Started p = false) pods -> drain_input env (podIndex pods) = ∅.
Proof.
  intros Hs. apply map_eq. intros k. unfold drain_input. rewrite lookup_omap, lookup_empty.
  destruct (podIndex pods !! k) as [p|] eqn:I; [|reflexivity]. simpl.
  destruct (podIndex_In _ _ _ I) as [Hin _].
  rewrite List.Forall_forall in Hs. rewrite (Hs p Hin). reflexivity.
Qed.

(** reconcileDrain: when no Pod has a started marker, the pass only clears
    the acknowledged and finished markers of Pods and emits events, and it
    asks for no requeue. *)
Theorem reconcileDrain_no_drain_requests (env : Env) (vts : VitessShard) (pods : list Pod) (shard : Shard)
    (tablets : gmap string Tablet) :
  map_iter_ok env -> Forall (fun p => Started p = false) pods ->
  Forall (freeze_action (podIndex pods)) (snd (reconcileDrain env vts (GoOk pods) (GoOk shard) (GoOk tablets))) /\
  exists err, fst (reconcileDrain env vts (GoOk pods) (GoOk shard) (GoOk tablets)) = Returned None err.
Proof.
  intros Hiter Hs. unfold reconcileDrain, healthGate.
  destruct (isShardHealthy env vts); [split; [repeat constructor | eauto]|].
  unfold primaryGate. destruct (shard_primary shard) as [prim|]; [|split; [repeat constructor | eauto]].
  unfold drainPhases. simpl ps_pods.
  set (idx := podIndex pods).
  set (s0 := mkPassState idx [] emptyBuilder).
  assert (Hl : forall k p, In (k, p) (iter env idx) -> idx !! k = Some p)
    by (intros k p; apply (iter_In env); exact Hiter).
  pose proof (load_freeze_log env idx (iter env idx) ∅ false s0 Hl (List.Forall_nil _)) as H1.
  pose proof (load_requeue env (iter env idx) ∅ false s0 eq_refl) as R1.
  destruct (loadDrainState env (iter env idx) ∅ false s0) as [[drains aborting] s1 | s1] eqn:L.
  2:{ destruct (load_go env (iter env idx) ∅ false s0) as (? & ? & ? & L'). congruence. }
  simpl in H1, R1. pose proof (load_drain_input env idx false s0 drains aborting s1 Hiter L) as Ed.
  subst drains. unfold idx. rewrite (drain_input_empty env pods Hs), bool_decide_true by reflexivity.
  split; [exact H1|]. simpl. rewrite R1. eauto.
Qed.



(** updateDrainStatus changes only the acknowledged and finished
    annotations of a Pod: its name, alias, labels, readiness, containers
    and every other annotation, the started marker among them, are kept. *)
Theorem updateDrainStatus_only_markers (env : Env) (pod p' : Pod) (st : State) (w : bool)
    (e : option string) :
  updateDrainStatus env pod st = Some (p', w, e) ->
  same_but_markers pod p' /\ Started p' = Started pod.
Proof.
  intros U. pose proof (updateDrainStatus_same _ _ _ _ _ _ U) as Sm.
  split; [exact Sm | apply same_but_markers_Started, Sm].
Qed.

(** podIndex maps an alias to the last Pod of the list that carries it,
    and has no entry for an alias that no Pod carries. *)
Theorem podIndex_lookup_last (l : list Pod) (k : string) :
  podIndex l !! k = last (filter (fun p => pod_alias p = k) l).
Proof. exact (podIndex_last l k). Qed.

(* ------------------------------------------------------------------ *)
(** ** Runs of the further properties on small inputs                  *)
(* ------------------------------------------------------------------ *)

Ltac version_side :=
  first [ reflexivity
        | exists ""; repeat split; reflexivity
        | exists "-debian"; repeat split; reflexivity
        | vm_compute; reflexivity
        | vm_compute; intros [? ?]; discriminate
        | vm_compute; discriminate ].

Lemma safeMysqldUpgrade_same_numbers_witness :
  safeMysqldUpgrade ("mysql" ++ String ":" "8.0.36") ("mysql" ++ String ":" "8.0.36-debian")
  = (false, None).
Proof.
  apply (safeMysqldUpgrade_same_numbers "mysql" "8.0.36" "mysql" "8.0.36-debian"
           "8" "0" "36" "8" "0" "36"); version_side.
Defined.

Lemma safeMysqldUpgrade_major_upgrade_witness :
  safeMysqldUpgrade ("mysql" ++ String ":" "5.7.9") ("mysql" ++ String ":" "8.0.1") = (true, None).
Proof.
  apply (safeMysqldUpgrade_major_upgrade "mysql" "5.7.9" "mysql" "8.0.1"
           "5" "7" "9" "8" "0" "1"); version_side.
Defined.

Lemma safeMysqldUpgrade_minor_upgrade_witness :
  safeMysqldUpgrade ("mysql" ++ String ":" "8.0.36") ("mysql" ++ String ":" "8.1.0") = (true, None).
Proof.
  apply (safeMysqldUpgrade_minor_upgrade "mysql" "8.0.36" "mysql" "8.1.0"
           "8" "0" "36" "8" "1" "0"); version_side.
Defined.

Lemma safeMysqldUpgrade_minor_downgrade_guard_witness :
  safeMysqldUpgrade ("mysql" ++ String ":" "8.1.0") ("mysql" ++ String ":" "8.0.36") = (true, None).
Proof.
  apply (safeMysqldUpgrade_minor_downgrade_guard "mysql" "8.1.0" "mysql" "8.0.36"
           "8" "1" "0" "8" "0" "36"); version_side.
Defined.

Lemma safeMysqldUpgrade_patch_change_outside_80_witness :
  safeMysqldUpgrade ("mysql" ++ String ":" "5.7.9") ("mysql" ++ String ":" "5.7.8") = (false, None).
Proof.
  apply (safeMysqldUpgrade_patch_change_outside_80 "mysql" "5.7.9" "mysql" "5.7.8"
           "5" "7" "9" "5" "7" "8"); version_side.
Defined.

Lemma safeMysqldUpgrade_patch_rules_80_witness :
  safeMysqldUpgrade ("mysql" ++ String ":" "8.0.33") ("mysql" ++ String ":" "8.0.34") = (true, None).
Proof.
  refine (proj2 (proj2 (safeMysqldUpgrade_patch_rules_80 "mysql" "8.0.33" "mysql" "8.0.34"
                          "8" "0" "33" "8" "0" "34" _ _ _ _ _ _ _ _)) _ _); version_side.
Defined.

Lemma updateDrainStatus_writes_iff_changed_witness :
  (true = true <-> pod_annotations (Finish Samples.ackPod) <> pod_annotations Samples.ackPod) /\
  (None : option string) = (if true then env_Update Samples.quiet (Finish Samples.ackPod) else None).
Proof.
  apply (updateDrainStatus_writes_iff_changed Samples.quiet Samples.ackPod (Finish Samples.ackPod)
           FinishedState true None).
  vm_compute. reflexivity.
Defined.

Lemma updateDrainStatus_only_markers_witness :
  same_but_markers Samples.ackPod (Finish Samples.ackPod) /\
  Started (Finish Samples.ackPod) = Started Samples.ackPod.
Proof.
  apply (updateDrainStatus_only_markers Samples.quiet Samples.ackPod (Finish Samples.ackPod)
           FinishedState true None).
  vm_compute. reflexivity.
Defined.

Lemma disableFastShutdown_success_log_witness :
  Forall (fast_shutdown_ok Samples.upgradeTablets "mysql:8.1.0") Samples.upgradeList /\
  ps_log (snd (disableFastShutdown Samples.quiet Samples.upgradeList Samples.upgradeTablets
                 "mysql:8.1.0" Samples.s0))
  = (ps_log Samples.s0 ++ flat_map (fast_shutdown_actions Samples.upgradeTablets "mysql:8.1.0")
                                  Samples.upgradeList)%list.
Proof.
  apply disableFastShutdown_success_log. vm_compute. reflexivity.
Defined.

Lemma disableFastShutdown_first_error_witness :
  exists pre k pod t post,
    Samples.upgradeList = (pre ++ (k, pod) :: post)%list /\
    Forall (fast_shutdown_ok Samples.upgradeTablets "mysql:5.7.9") pre /\
    Samples.upgradeTablets !! k = Some t /\
    ((exists b, safeMysqldUpgrade (mysqldImage pod) "mysql:5.7.9"
                = (b, Some "cannot downgrade major version from 8.0.36 to 5.7.9") /\
       ps_log (snd (disableFastShutdown Samples.quiet Samples.upgradeList Samples.upgradeTablets
                      "mysql:5.7.9" Samples.s0))
       = (ps_log Samples.s0 ++ flat_map (fast_shutdown_actions Samples.upgradeTablets "mysql:5.7.9") pre)%list) \/
     (exists e', safeMysqldUpgrade (mysqldImage pod) "mysql:5.7.9" = (true, None) /\
       env_ExecuteFetchAsDba Samples.quiet t = Some e' /\
       "cannot downgrade major version from 8.0.36 to 5.7.9"
       = "failed to disable fast shutdown for tablet " ++ k ++ ": " ++ e' /\
       ps_log (snd (disableFastShutdown Samples.quiet Samples.upgradeList Samples.upgradeTablets
                      "mysql:5.7.9" Samples.s0))
       = (ps_log Samples.s0 ++ flat_map (fast_shutdown_actions Samples.upgradeTablets "mysql:5.7.9") pre
          ++ [ExecuteFetchAsDba k])%list)).
Proof.
  apply disableFastShutdown_first_error. vm_compute. reflexivity.
Defined.

Lemma candidatePrimary_none_iff_no_eligible_witness :
  candidatePrimary Samples.quiet "zone1-100" (Runs.tabletsOf [("zone1-100", PRIMARY)])
    (podIndex [Runs.pod "zone1-100" true []]) false = None <->
  (forall k t, Runs.tabletsOf [("zone1-100", PRIMARY)] !! k = Some t ->
               eligible "zone1-100" (podIndex [Runs.pod "zone1-100" true []]) false k t = false).
Proof.
  apply candidatePrimary_none_iff_no_eligible. intros A m. reflexivity.
Defined.

Lemma reconcileDrain_requeue_reason_witness :
  10%N = env_replicationRequeueDelay Samples.finishPrimary /\
  ((exists e, GoOk Samples.shard100 = GoErr e) \/
   (exists e, GoOk (Runs.tabletsOf [("zone1-100", PRIMARY)]) = GoErr e) \/
   In (Event Warning "DrainBlocked") [Event Warning "DrainBlocked"]).
Proof.
  apply (reconcileDrain_requeue_reason Samples.finishPrimary Runs.shardVts
           (GoOk [Runs.pod "zone1-100" true [startedAnnotation]]) (GoOk Samples.shard100)
           (GoOk (Runs.tabletsOf [("zone1-100", PRIMARY)])) 10%N None [Event Warning "DrainBlocked"]).
  vm_compute. reflexivity.
Defined.

Lemma reconcileDrain_at_most_one_reparent_witness :
  length (omap reparent_target (snd (reconcileDrain Samples.finishPrimary Samples.extVts
            (GoOk Samples.extPods) (GoOk Samples.shard100) (GoOk Samples.extTablets)))) <= 1 /\
  Forall (fun x => exists shard prim, GoOk Samples.shard100 = GoOk shard /\
                                      shard_primary shard = Some prim /\ x <> prim)
    (omap reparent_target (snd (reconcileDrain Samples.finishPrimary Samples.extVts
            (GoOk Samples.extPods) (GoOk Samples.shard100) (GoOk Samples.extTablets)))).
Proof.
  apply reconcileDrain_at_most_one_reparent. intros l. reflexivity.
Defined.

Lemma reconcileDrain_spare_only_old_primary_witness :
  SPARE = SPARE /\ vts_using_external Samples.extVts = true /\
  (exists shard, GoOk Samples.shard100 = GoOk shard /\ shard_primary shard = Some "zone1-100") /\
  exists y, In (TabletExternallyReparented y)
              (snd (reconcileDrain Samples.finishPrimary Samples.extVts
                      (GoOk Samples.extPods) (GoOk Samples.shard100) (GoOk Samples.extTablets))) /\
            env_TabletExternallyReparented Samples.finishPrimary y = None.
Proof.
  apply reconcileDrain_spare_only_old_primary.
  vm_compute. right. left. reflexivity.
Defined.

Lemma loadDrainState_drain_input_witness :
  exists aborting s',
    loadDrainState Samples.finishPrimary (iter Samples.finishPrimary (podIndex Samples.extPods)) ∅ false
      Samples.s0
    = Go (drain_input Samples.finishPrimary (podIndex Samples.extPods), aborting) s'.
Proof.
  apply loadDrainState_drain_input. intros A m. reflexivity.
Defined.

Lemma reconcileDrain_writes_only_markers_witness :
  Forall (fun a => forall k p', a = UpdatePod k p' ->
            exists p0, In p0 Samples.drainPods /\ pod_alias p0 = k /\ same_but_markers p0 p' /\
                       Started p' = Started p0)
    (snd (reconcileDrain Samples.ackOther Runs.shardVts (GoOk Samples.drainPods)
            (GoOk Samples.shard100) (GoOk Samples.drainTablets))) /\
  In (UpdatePod "zone1-101" (Acknowledge (Runs.pod "zone1-101" true [startedAnnotation])))
    (snd (reconcileDrain Samples.ackOther Runs.shardVts (GoOk Samples.drainPods)
            (GoOk Samples.shard100) (GoOk Samples.drainTablets))).
Proof.
  split.
  - apply reconcileDrain_writes_only_markers. intros A m. reflexivity.
  - vm_compute. left. reflexivity.
Defined.

Lemma reconcileDrain_panic_origin_witness :
  exists pods shard prim k st,
    GoOk [Runs.pod "zone1-100" true [startedAnnotation]; Runs.pod "zone1-101" true [startedAnnotation]]
      = GoOk pods /\
    GoOk Samples.shard100 = GoOk shard /\ shard_primary shard = Some prim /\
    env_StateTransitions Samples.drainOther (drain_input Samples.drainOther (podIndex pods)) !! k = Some st /\
    ~ (st = FinishedState /\ k = prim) /\
    (st = DrainingState \/ podIndex pods !! k = None).
Proof.
  apply (reconcileDrain_panic_origin Samples.drainOther Runs.shardVts
           (GoOk [Runs.pod "zone1-100" true [startedAnnotation]; Runs.pod "zone1-101" true [startedAnnotation]])
           (GoOk Samples.shard100) (GoOk (Runs.tabletsOf [("zone1-100", PRIMARY); ("zone1-101", REPLICA)]))).
  - intros A m. reflexivity.
  - vm_compute. reflexivity.
Defined.

Lemma reconcileDrain_no_drain_requests_witness :
  Forall (freeze_action (podIndex [Runs.pod "zone1-100" true []; Runs.pod "zone1-101" true [finishedAnnotation]]))
    (snd (reconcileDrain Samples.quiet Runs.shardVts
       (GoOk [Runs.pod "zone1-100" true []; Runs.pod "zone1-101" true [finishedAnnotation]])
       (GoOk Samples.shard100)
       (GoOk (Runs.tabletsOf [("zone1-100", PRIMARY); ("zone1-101", REPLICA)])))) /\
  exists err, fst (reconcileDrain Samples.quiet Runs.shardVts
       (GoOk [Runs.pod "zone1-100" true []; Runs.pod "zone1-101" true [finishedAnnotation]])
       (GoOk Samples.shard100)
       (GoOk (Runs.tabletsOf [("zone1-100", PRIMARY); ("zone1-101", REPLICA)]))) = Returned None err.
Proof.
  apply reconcileDrain_no_drain_requests.
  - intros A m. reflexivity.
  - repeat constructor.
Defined.
